(** * The JOS kernel monitor (kern/monitor.c), embedded and verified

    The monitor is a small command interpreter that runs inside the kernel:
    it reads a line, splits it into arguments, looks the first argument up in
    a table of commands and calls the handler.  Two handlers do real work:
    [mon_backtrace] follows the chain of saved frame pointers, and
    [mon_showva2pa] walks a range of virtual addresses through the kernel
    page table.

    The code is for the 32-bit x86 (it reads [%ebp] and prints words with
    [%08x]), so pointers and [uint32_t] are integers modulo [2^32].  C strings
    are [string]s holding the characters before the terminating NUL; [argv]
    is the list of the arguments and [argc] its length.  The trap frame [tf]
    is only handed from [monitor] down to the handlers, none of which looks at
    it, and is left out. *)

From Stdlib Require Import ZArith List String Ascii Bool Arith Lia.
Import ListNotations.

Local Open Scope string_scope.
Local Open Scope list_scope.
Local Open Scope Z_scope.

(** ** Machine words and pointers *)

Definition wrap32 (z : Z) : Z := z mod 2 ^ 32.

(** [(int) p] / [(long) p]: the two's complement reading of a word. *)
Definition signed32 (z : Z) : Z :=
  let w := wrap32 z in if w <? 2 ^ 31 then w else w - 2 ^ 32.

(** [uint32_t] and [uintptr_t] are both four bytes wide on this target. *)
Definition sizeof_uint32_t : Z := 4.
Definition sizeof_uintptr_t : Z := 4.

(** [p + n] where [p] points to elements of [size] bytes. *)
Definition ptr_add (size p n : Z) : Z := wrap32 (p + n * size).

(** ** Console output and collaborator calls

    Every [cprintf] call is recorded with its format string and its
    arguments; calls into the page-table code are recorded next to them, so
    that a run of a handler is the sequence of what it asked of the rest of
    the kernel. *)

Inductive arg : Type :=
| AStr (s : string)
| AInt (z : Z).

Inductive event : Type :=
| Cprintf (fmt : string) (args : list arg)
| PgdirWalk (va : Z) (create : Z)
| PageLookup (va : Z).

Definition nl : string := String "010"%char EmptyString.

(** ** What the monitor uses from the rest of the kernel *)

(** [struct Eipdebuginfo] of kern/kdebug.h, the fields the monitor reads. *)
Record Eipdebuginfo : Type := {
  eip_file : string;
  eip_line : Z;
  eip_fn_name : string;
  eip_fn_namelen : Z;
  eip_fn_addr : Z
}.

(** The collaborators, over an abstract state [Pmap] of the page tables and
    page records reachable from [kern_pgdir].  [pgdir_walk] and [page_lookup]
    take and return that state, the way the C functions can write to it
    ([pgdir_walk] allocates a table when [create] is not zero);  a null
    pointer result is [None]. *)
Record Env (Pmap : Type) : Type := {
  (* lib/string.c: the value returned; the end pointer is never read *)
  strtol : string -> Z -> Z;
  (* kern/pmap.c *)
  pgdir_walk : Pmap -> Z -> Z -> Pmap * option Z;
  page_lookup : Pmap -> Z -> Pmap * option (Z * Z);
  pte_load : Pmap -> Z -> Z;
  page2pa : Z -> Z;
  pp_ref : Pmap -> Z -> Z;
  (* inc/mmu.h *)
  PTE_W : Z;
  PTE_U : Z;
  (* raw memory and registers *)
  mem : Z -> Z;
  read_ebp : Z;
  (* kern/kdebug.c *)
  debuginfo_eip : Z -> Eipdebuginfo;
  (* linker symbols and inc/memlayout.h *)
  sym_start : Z;
  sym_entry : Z;
  sym_etext : Z;
  sym_edata : Z;
  sym_end : Z;
  KERNBASE : Z
}.

Arguments strtol {Pmap}.
Arguments pgdir_walk {Pmap}.
Arguments page_lookup {Pmap}.
Arguments pte_load {Pmap}.
Arguments page2pa {Pmap}.
Arguments pp_ref {Pmap}.
Arguments PTE_W {Pmap}.
Arguments PTE_U {Pmap}.
Arguments mem {Pmap}.
Arguments read_ebp {Pmap}.
Arguments debuginfo_eip {Pmap}.
Arguments sym_start {Pmap}.
Arguments sym_entry {Pmap}.
Arguments sym_etext {Pmap}.
Arguments sym_edata {Pmap}.
Arguments sym_end {Pmap}.
Arguments KERNBASE {Pmap}.

(** ** The monad of handlers

    A computation takes the page-table state.  It returns a value, or it is
    still running when the fuel given to its loops is used up; either way it
    leaves a state and the events produced so far. *)

Inductive outcome (Pmap A : Type) : Type :=
| Returned (a : A) (s : Pmap) (t : list event)
| Unfinished (s : Pmap) (t : list event).

Arguments Returned {Pmap A}.
Arguments Unfinished {Pmap A}.

Definition state_of {Pmap A} (o : outcome Pmap A) : Pmap :=
  match o with Returned _ s _ => s | Unfinished s _ => s end.

Definition trace_of {Pmap A} (o : outcome Pmap A) : list event :=
  match o with Returned _ _ t => t | Unfinished _ t => t end.

Definition M (Pmap A : Type) : Type := Pmap -> outcome Pmap A.

Definition ret {Pmap A} (a : A) : M Pmap A := fun s => Returned a s [].

Definition bind {Pmap A B} (m : M Pmap A) (k : A -> M Pmap B) : M Pmap B :=
  fun s =>
    match m s with
    | Unfinished s1 t1 => Unfinished s1 t1
    | Returned a s1 t1 =>
        match k a s1 with
        | Returned b s2 t2 => Returned b s2 (t1 ++ t2)
        | Unfinished s2 t2 => Unfinished s2 (t1 ++ t2)
        end
    end.

Definition out_of_fuel {Pmap A} : M Pmap A := fun s => Unfinished s [].

Definition cprintf {Pmap} (fmt : string) (args : list arg) : M Pmap unit :=
  fun s => Returned tt s [Cprintf fmt args].

Notation "x <- m ;; k" := (bind m (fun x => k))
  (at level 61, m at next level, right associativity).
Notation "m ;; k" := (bind m (fun _ => k))
  (at level 61, right associativity).

(** ** The tokenizer of [runcmd] *)

Definition WHITESPACE : string :=
  String "009"%char (String "013"%char (String "010"%char (String " "%char EmptyString))).

Definition MAXARGS : Z := 16.

Definition is_nul (c : ascii) : bool := Ascii.eqb c "000"%char.

(** [strchr s c != NULL] for a character [c] that is not NUL. *)
Fixpoint strchr (s : string) (c : ascii) : bool :=
  match s with
  | EmptyString => false
  | String d s' => if Ascii.eqb d c then true else strchr s' c
  end.

(** [while ( *buf && strchr(WHITESPACE, *buf)) *buf++ = 0;] *)
Fixpoint gobble (buf : string) : string :=
  match buf with
  | EmptyString => EmptyString
  | String c rest =>
      if negb (is_nul c) && strchr WHITESPACE c then gobble rest else buf
  end.

(** [while ( *buf && !strchr(WHITESPACE, *buf)) buf++;]  The characters
    passed over are the argument (it is NUL-terminated by the next [gobble]
    or by the end of the line); the second component is where [buf] stops. *)
Fixpoint scan_arg (buf : string) : string * string :=
  match buf with
  | EmptyString => (EmptyString, EmptyString)
  | String c rest =>
      if negb (is_nul c) && negb (strchr WHITESPACE c)
      then let (a, r) := scan_arg rest in (String c a, r)
      else (EmptyString, buf)
  end.

(** [*buf == 0] *)
Definition at_end (buf : string) : bool :=
  match buf with
  | EmptyString => true
  | String c _ => is_nul c
  end.

Inductive parsed : Type :=
| Args (argv : list string)
| TooMany.

(** The [while (1)] loop of [runcmd]; [argv] holds the [argc] arguments
    saved so far.  Each round passes over at least one character, so
    [String.length buf + 1] rounds are always enough. *)
Fixpoint parse_loop (fuel : nat) (buf : string) (argv : list string) : option parsed :=
  match fuel with
  | O => None
  | S f =>
      let buf := gobble buf in
      if at_end buf then Some (Args argv)
      else if Z.of_nat (List.length argv) =? MAXARGS - 1 then Some TooMany
      else let (a, rest) := scan_arg buf in parse_loop f rest (argv ++ [a])%list
  end.

Definition parse_args (buf : string) : option parsed :=
  parse_loop (S (String.length buf)) buf [].

(** [argv[i]], for [i] below [argc]. *)
Definition arg_at (argv : list string) (i : nat) : string := nth i argv EmptyString.

(** A format string that ends in a newline. *)
Definition ln (s : string) : string := String.append s nl.

(** ** The command handlers *)

(** The names and descriptions of [commands], which [mon_help] prints. *)
Definition command_info : list (string * string) :=
  [ ("help", "Display this list of commands");
    ("kerninfo", "Display information about the kernel");
    ("backtrace", "Display information about the kernel");
    ("showva2pa", "Display the physical pages information corresponding to the designated virtual addresses") ].

(** [ROUNDUP(a, n)] of inc/types.h at type [int]: computed on [uint32_t] and
    cast back. *)
Definition ROUNDUP (a n : Z) : Z :=
  let x := wrap32 (a + wrap32 n - 1) in signed32 (x - x mod wrap32 n).

Section Handlers.

Context {Pmap : Type} (E : Env Pmap).

Fixpoint mon_help_loop (cs : list (string * string)) : M Pmap unit :=
  match cs with
  | [] => ret tt
  | (n, d) :: rest =>
      cprintf (ln "%s - %s") [AStr n; AStr d] ;; mon_help_loop rest
  end.

Definition mon_help (argv : list string) : M Pmap Z :=
  mon_help_loop command_info ;; ret 0.

Definition mon_kerninfo (argv : list string) : M Pmap Z :=
  cprintf (ln "Special kernel symbols:") [] ;;
  cprintf (ln "  _start                  %08x (phys)") [AInt (sym_start E)] ;;
  cprintf (ln "  entry  %08x (virt)  %08x (phys)")
    [AInt (sym_entry E); AInt (wrap32 (sym_entry E - KERNBASE E))] ;;
  cprintf (ln "  etext  %08x (virt)  %08x (phys)")
    [AInt (sym_etext E); AInt (wrap32 (sym_etext E - KERNBASE E))] ;;
  cprintf (ln "  edata  %08x (virt)  %08x (phys)")
    [AInt (sym_edata E); AInt (wrap32 (sym_edata E - KERNBASE E))] ;;
  cprintf (ln "  end    %08x (virt)  %08x (phys)")
    [AInt (sym_end E); AInt (wrap32 (sym_end E - KERNBASE E))] ;;
  cprintf (ln "Kernel executable memory footprint: %dKB")
    [AInt (Z.quot (ROUNDUP (signed32 (sym_end E - sym_entry E)) 1024) 1024)] ;;
  ret 0.

(** *** mon_backtrace *)

(** [*(p + i)] for [uint32_t *p]. *)
Definition load (p i : Z) : Z := wrap32 (mem E (ptr_add sizeof_uint32_t p i)).

(** One round of the [while (ebp != 0)] loop, without the update of [ebp]. *)
Definition backtrace_frame (ebp : Z) : M Pmap unit :=
  let eip := load ebp 1 in
  cprintf (ln "ebp %08x eip %08x args %08x %08x %08x %08x %08x")
    [AInt ebp; AInt eip; AInt (load ebp 2); AInt (load ebp 3);
     AInt (load ebp 4); AInt (load ebp 5); AInt (load ebp 6)] ;;
  let eipdebuginfo := debuginfo_eip E eip in
  cprintf "%s:%d" [AStr (eip_file eipdebuginfo); AInt (eip_line eipdebuginfo)] ;;
  cprintf (ln ": %.*s+%d")
    [AInt (eip_fn_namelen eipdebuginfo); AStr (eip_fn_name eipdebuginfo);
     AInt (eip_fn_addr eipdebuginfo)].

Fixpoint backtrace_loop (fuel : nat) (ebp : Z) : M Pmap unit :=
  if ebp =? 0 then ret tt
  else
    match fuel with
    | O => out_of_fuel
    | S f => backtrace_frame ebp ;; backtrace_loop f (load ebp 0)
    end.

Definition mon_backtrace (fuel : nat) (argv : list string) : M Pmap Z :=
  backtrace_loop fuel (wrap32 (read_ebp E)) ;; ret 0.

(** *** mon_showva2pa *)

Definition call_pgdir_walk (va create : Z) : M Pmap (option Z) :=
  fun s => let (s', r) := pgdir_walk E s va create in Returned r s' [PgdirWalk va create].

Definition call_page_lookup (va : Z) : M Pmap (option (Z * Z)) :=
  fun s => let (s', r) := page_lookup E s va in Returned r s' [PageLookup va].

(** [*entry] and [va_page->pp_ref]: reads of the state. *)
Definition read_pte (entry : Z) : M Pmap Z :=
  fun s => Returned (pte_load E s entry) s [].

Definition read_pp_ref (va_page : Z) : M Pmap Z :=
  fun s => Returned (pp_ref E s va_page) s [].

Definition unmapped_fmt : string := ln "VA: %x does not have a mapped physical page!".
Definition mapped_fmt : string := ln "VA: 0x%x, PA: 0x%x, pp_ref: %d, PTE_W: %d, PTE_U: %d".

(** The body of the [for] loop; both [continue]s and the [else] branch end
    the round. *)
Definition showva2pa_body (va : Z) : M Pmap unit :=
  entry <- call_pgdir_walk va 0 ;;
  match entry with
  | None => cprintf unmapped_fmt [AInt va]
  | Some _ =>
      r <- call_page_lookup va ;;
      match r with
      | None => cprintf unmapped_fmt [AInt va]
      | Some (va_page, entry) =>
          pte <- read_pte entry ;;
          let w := if Z.land pte (PTE_W E) =? PTE_W E then 1 else 0 in
          let u := if Z.land pte (PTE_U E) =? PTE_U E then 1 else 0 in
          ref <- read_pp_ref va_page ;;
          cprintf mapped_fmt
            [AInt va; AInt (page2pa E va_page); AInt ref; AInt w; AInt u]
      end
  end.

(** [for (va = va_low; va <= va_high; va += 1024)] with [uintptr_t *va]: the
    step is 1024 elements of the pointed-to type. *)
Fixpoint showva2pa_loop (fuel : nat) (va va_high : Z) : M Pmap unit :=
  if va <=? va_high then
    match fuel with
    | O => out_of_fuel
    | S f =>
        showva2pa_body va ;;
        showva2pa_loop f (ptr_add sizeof_uintptr_t va 1024) va_high
    end
  else ret tt.

(** [(uintptr_t * ) strtol(argv[i], &ptr, 16)] *)
Definition parse_va (argv : list string) (i : nat) : Z :=
  wrap32 (strtol E (arg_at argv i) 16).

Definition mon_showva2pa (fuel : nat) (argv : list string) : M Pmap Z :=
  let argc := Z.of_nat (List.length argv) in
  if argc =? 1 then
    cprintf (ln "At least one argument.") [] ;; ret 0
  else if argc >=? 4 then
    cprintf (ln "Too many arguments (max %d)") [AInt 2] ;; ret 0
  else
    let '(va_low, va_high) :=
      if argc =? 2 then (parse_va argv 1, parse_va argv 1)
      else if argc =? 3 then
        if parse_va argv 1 >? parse_va argv 2
        then (parse_va argv 2, parse_va argv 1)
        else (parse_va argv 1, parse_va argv 2)
      else (0, 0) in
    showva2pa_loop fuel va_low va_high ;; ret 0.

(** ** The command interpreter *)

Record Command : Type := {
  name : string;
  desc : string;
  func : nat -> list string -> M Pmap Z
}.

Definition commands : list Command :=
  [ {| name := "help"; desc := "Display this list of commands";
       func := fun _ => mon_help |};
    {| name := "kerninfo"; desc := "Display information about the kernel";
       func := fun _ => mon_kerninfo |};
    {| name := "backtrace"; desc := "Display information about the kernel";
       func := mon_backtrace |};
    {| name := "showva2pa";
       desc := "Display the physical pages information corresponding to the designated virtual addresses";
       func := mon_showva2pa |} ].

(** The lookup loop of [runcmd].  The table it goes through is the global
    [commands]; it is an argument here, so that the interpreter and the
    monitor loop can also be run with a table that has other handlers. *)
Fixpoint lookup (cmds : list Command) (fuel : nat) (argv : list string) : M Pmap Z :=
  match cmds with
  | [] => cprintf (ln "Unknown command '%s'") [AStr (arg_at argv 0)] ;; ret 0
  | c :: rest =>
      if String.eqb (arg_at argv 0) (name c) then func c fuel argv
      else lookup rest fuel argv
  end.

Definition dispatch (cmds : list Command) (fuel : nat) (argv : list string) : M Pmap Z :=
  if Z.of_nat (List.length argv) =? 0 then ret 0 else lookup cmds fuel argv.

Definition runcmd (cmds : list Command) (fuel : nat) (buf : string) : M Pmap Z :=
  match parse_args buf with
  | None => out_of_fuel
  | Some TooMany => cprintf (ln "Too many arguments (max %d)") [AInt MAXARGS] ;; ret 0
  | Some (Args argv) => dispatch cmds fuel argv
  end.

(** ** The monitor loop

    [readline] is the console's, prompt included; a run of the loop is taken
    over the lines it hands back, [None] being a null pointer.  When they are
    used up the loop is blocked in [readline], still running. *)

Inductive loop_state : Type := Running | Terminated.

Fixpoint monitor_loop (cmds : list Command) (fuel : nat) (lines : list (option string))
  : M Pmap loop_state :=
  match lines with
  | [] => ret Running
  | None :: rest => monitor_loop cmds fuel rest
  | Some buf :: rest =>
      r <- runcmd cmds fuel buf ;;
      if r <? 0 then ret Terminated else monitor_loop cmds fuel rest
  end.

Definition monitor (cmds : list Command) (fuel : nat) (lines : list (option string))
  : M Pmap loop_state :=
  cprintf (ln "Welcome to the JOS kernel monitor!") [] ;;
  cprintf (ln "Type 'help' for a list of commands.") [] ;;
  monitor_loop cmds fuel lines.

End Handlers.

(** * The vocabulary of the properties *)

(** ** Lines of words *)

(** A character of the line is a blank when it is in [WHITESPACE], and part
    of a word when it is neither a blank nor NUL. *)
Definition blank_char (c : ascii) : bool := strchr WHITESPACE c.
Definition word_char (c : ascii) : bool := negb (is_nul c) && negb (strchr WHITESPACE c).

Fixpoint all_chars (p : ascii -> bool) (s : string) : bool :=
  match s with
  | EmptyString => true
  | String c s' => p c && all_chars p s'
  end.

Definition blank (s : string) : Prop := all_chars blank_char s = true.
Definition word (s : string) : Prop := s <> EmptyString /\ all_chars word_char s = true.

(** A line made of the blanks [lead] and then of words, each followed by its
    own run of blanks. *)
Fixpoint line (lead : string) (toks : list (string * string)) : string :=
  String.append lead
    match toks with
    | [] => EmptyString
    | (t, sep) :: rest => String.append t (line sep rest)
    end.

(** Every word is followed by blanks, and by at least one when another word
    comes after it. *)
Fixpoint well_spaced (toks : list (string * string)) : Prop :=
  match toks with
  | [] => True
  | (t, sep) :: rest =>
      word t /\ blank sep /\ (rest <> [] -> sep <> EmptyString) /\ well_spaced rest
  end.

(** [scan_arg] stops at the first character that is not part of a word. *)
Definition stops_scan (s : string) : Prop :=
  match s with
  | EmptyString => True
  | String c _ => word_char c = false
  end.

(** ** Observations on a run *)

(** The addresses handed to [pgdir_walk], in order. *)
Definition walked (t : list event) : list Z :=
  flat_map (fun e => match e with PgdirWalk va _ => [va] | _ => [] end) t.

(** The lines printed, and the address each report line starts with. *)
Definition is_print (e : event) : bool :=
  match e with Cprintf _ _ => true | _ => false end.

Definition printed (t : list event) : list event := filter is_print t.

Definition reported (t : list event) : list Z :=
  flat_map (fun e => match e with Cprintf _ (AInt va :: _) => [va] | _ => [] end) t.

(** The calls into the page-table code. *)
Definition queries (t : list event) : list event := filter (fun e => negb (is_print e)) t.

(** No walk asks for a table to be created. *)
Definition no_create (e : event) : Prop :=
  match e with PgdirWalk _ create => create = 0 | _ => True end.

(** What one round of the range walk leaves in the trace for the address
    [va]: the walk, the page lookup when an entry was found, and one line. *)
Inductive visit (va : Z) : list event -> Prop :=
| visit_no_entry :
    visit va [PgdirWalk va 0; Cprintf unmapped_fmt [AInt va]]
| visit_no_page :
    visit va [PgdirWalk va 0; PageLookup va; Cprintf unmapped_fmt [AInt va]]
| visit_mapped (pa ref w u : Z) :
    visit va [PgdirWalk va 0; PageLookup va;
              Cprintf mapped_fmt [AInt va; AInt pa; AInt ref; AInt w; AInt u]].

Inductive visits : list Z -> list event -> Prop :=
| visits_nil : visits [] []
| visits_cons va vas t1 t2 : visit va t1 -> visits vas t2 -> visits (va :: vas) (t1 ++ t2).

(** The step of the walk in bytes, and the addresses [lo], [lo + step], ... *)
Definition stride : Z := 1024 * sizeof_uintptr_t.

Fixpoint strides (step lo : Z) (count : nat) : list Z :=
  match count with
  | O => []
  | S c => lo :: strides step (lo + step) c
  end.

(** The walk as the specification words it: from [lo] upward in steps of
    1024 bytes, through [hi]. *)
Definition spec_walk (lo hi : Z) : list Z :=
  strides 1024 lo (Z.to_nat ((hi - lo) / 1024 + 1)).

(** The page-table code leaves the state alone when it is only asked to
    look. *)
Definition read_only {Pmap : Type} (E : Env Pmap) : Prop :=
  (forall s va, fst (pgdir_walk E s va 0) = s) /\
  (forall s va, fst (page_lookup E s va) = s).

(** ** Frames and chains of frame pointers *)

(** A frame as the walker shows it. *)
Record StackFrame : Type := {
  framePointer : Z;
  returnAddress : Z;
  arguments : list Z
}.

Definition frame_fmt : string := ln "ebp %08x eip %08x args %08x %08x %08x %08x %08x".

(** The frames that a trace shows, in the order they were printed. *)
Definition frames_of (t : list event) : list StackFrame :=
  flat_map
    (fun e =>
       match e with
       | Cprintf fmt [AInt fp; AInt ra; AInt a1; AInt a2; AInt a3; AInt a4; AInt a5] =>
           if String.eqb fmt frame_fmt
           then [ {| framePointer := fp; returnAddress := ra;
                     arguments := [a1; a2; a3; a4; a5] |} ]
           else []
       | _ => []
       end) t.

Section FrameChain.

Context {Pmap : Type} (E : Env Pmap).

(** The frame that memory holds at [ebp]. *)
Definition read_frame (ebp : Z) : StackFrame :=
  {| framePointer := ebp;
     returnAddress := load E ebp 1;
     arguments := [load E ebp 2; load E ebp 3; load E ebp 4; load E ebp 5; load E ebp 6] |}.

(** The chain of saved frame pointers from [ebp] reaches the zero sentinel
    after exactly [D] frames. *)
Fixpoint chain (ebp : Z) (D : nat) : Prop :=
  match D with
  | O => ebp = 0
  | S d => ebp <> 0 /\ chain (load E ebp 0) d
  end.

(** The first [n] frame pointers of the chain, the most recent first. *)
Fixpoint chain_fps (ebp : Z) (n : nat) : list Z :=
  match n with
  | O => []
  | S d => ebp :: chain_fps (load E ebp 0) d
  end.

(** What one round prints. *)
Definition frame_events (ebp : Z) : list event :=
  [ Cprintf frame_fmt
      [AInt ebp; AInt (load E ebp 1); AInt (load E ebp 2); AInt (load E ebp 3);
       AInt (load E ebp 4); AInt (load E ebp 5); AInt (load E ebp 6)];
    Cprintf "%s:%d"
      [AStr (eip_file (debuginfo_eip E (load E ebp 1)));
       AInt (eip_line (debuginfo_eip E (load E ebp 1)))];
    Cprintf (ln ": %.*s+%d")
      [AInt (eip_fn_namelen (debuginfo_eip E (load E ebp 1)));
       AStr (eip_fn_name (debuginfo_eip E (load E ebp 1)));
       AInt (eip_fn_addr (debuginfo_eip E (load E ebp 1)))] ].

End FrameChain.

(** ** Runs of the monitor loop *)

(** An outcome that comes after the events [t0]. *)
Definition after {Pmap A} (t0 : list event) (o : outcome Pmap A) : outcome Pmap A :=
  match o with
  | Returned a s t => Returned a s (t0 ++ t)
  | Unfinished s t => Unfinished s (t0 ++ t)
  end.

(** The lines that [runcmd] answers itself: too many arguments, nothing but
    blanks, or a first word that names no command. *)
Definition error_line {Pmap : Type} (cmds : list (@Command Pmap)) (buf : string) : Prop :=
  parse_args buf = Some TooMany \/
  parse_args buf = Some (Args []) \/
  exists argv, parse_args buf = Some (Args argv) /\ argv <> [] /\
               forall c, In c cmds -> name c <> arg_at argv 0.

(** * What is known of [strtol] *)

(** The value of a character as a digit, the letters counting from 10. *)
Definition digit_value (c : ascii) : option Z :=
  let n := Z.of_N (N_of_ascii c) in
  if (48 <=? n) && (n <=? 57) then Some (n - 48)
  else if (97 <=? n) && (n <=? 122) then Some (n - 97 + 10)
  else if (65 <=? n) && (n <=? 90) then Some (n - 65 + 10)
  else None.

(** The digits of base 16, and the tokens that hold none. *)
Definition hex_digit (c : ascii) : bool :=
  match digit_value c with
  | Some dig => dig <? 16
  | None => false
  end.

Definition digit_free (tok : string) : Prop :=
  all_chars (fun c => negb (hex_digit c)) tok = true.

(** Modelled from the spec: [strtol] is defined in lib/string.c, which is not
    part of the sources, and nothing else is written about it than that the
    monitor has it parse an address token in base 16 and that a token it
    cannot parse silently yields 0.  This is taken as its contract, for the
    tokens without any digit of base 16, from which no [strtol] can read a
    numeral.  What it returns on the other tokens is left open. *)
Definition strtol_contract (f : string -> Z -> Z) : Prop :=
  forall tok, digit_free tok -> f tok 16 = 0.

(** Modelled from the spec: a [strtol] for the example machine, one that
    meets the contract.  It passes over spaces and tabs, a sign and, in base
    16, a prefix [0x]; it takes digits as long as they are digits of the
    base, without a check for overflow; the result is a [long]. *)
Fixpoint strtol_digits (base : Z) (s : string) (val : Z) : Z :=
  match s with
  | EmptyString => val
  | String c s' =>
      match digit_value c with
      | Some dig => if dig >=? base then val else strtol_digits base s' (val * base + dig)
      | None => val
      end
  end.

Fixpoint strtol_blanks (s : string) : string :=
  match s with
  | String c s' =>
      if Ascii.eqb c " " || Ascii.eqb c "009" then strtol_blanks s' else s
  | EmptyString => s
  end.

Definition strtol_sign (s : string) : bool * string :=
  match s with
  | String c s' =>
      if Ascii.eqb c "+" then (false, s')
      else if Ascii.eqb c "-" then (true, s')
      else (false, s)
  | EmptyString => (false, s)
  end.

Definition strtol_prefix (base : Z) (s : string) : string :=
  match s with
  | String c0 (String c1 s') =>
      if (base =? 16) && Ascii.eqb c0 "0" && Ascii.eqb c1 "x" then s' else s
  | _ => s
  end.

Definition strtol_model (s : string) (base : Z) : Z :=
  let (neg, s1) := strtol_sign (strtol_blanks s) in
  let val := strtol_digits base (strtol_prefix base s1) 0 in
  signed32 (if neg then - val else val).

(** A line of the range walk, or a call into the page-table code: what a
    run holds when nothing is complained about. *)
Definition report_line (e : event) : Prop :=
  match e with
  | Cprintf fmt (AInt _ :: _) => fmt = unmapped_fmt \/ fmt = mapped_fmt
  | Cprintf _ _ => False
  | _ => True
  end.

(** * An instance of the collaborators, to run the handlers on examples *)

Module Demo.

(** A page table as a list of (virtual page number, entry) pairs; an entry
    holds the physical page address and the permission bits. *)
Definition Pmap : Type := list (Z * Z).

Fixpoint find_pte (s : Pmap) (vpn : Z) : option Z :=
  match s with
  | [] => None
  | (n, pte) :: s' => if n =? vpn then Some pte else find_pte s' vpn
  end.

Definition toy_walk (s : Pmap) (va create : Z) : Pmap * option Z :=
  match find_pte s (va / 4096) with
  | Some _ => (s, Some (va / 4096))
  | None => if create =? 0 then (s, None) else ((va / 4096, 0) :: s, Some (va / 4096))
  end.

Definition toy_lookup (s : Pmap) (va : Z) : Pmap * option (Z * Z) :=
  match find_pte s (va / 4096) with
  | Some pte => if Z.land pte 1 =? 1 then (s, Some (pte / 4096, va / 4096)) else (s, None)
  | None => (s, None)
  end.

Definition toy_pte (s : Pmap) (entry : Z) : Z :=
  match find_pte s entry with Some pte => pte | None => 0 end.

Definition symbol : Eipdebuginfo :=
  {| eip_file := "kern/init.c"; eip_line := 24;
     eip_fn_name := "test_backtrace"; eip_fn_namelen := 14;
     eip_fn_addr := 4027580480 |}.

(** The environment, for a given stack memory and frame pointer. *)
Definition env (memory : Z -> Z) (ebp : Z) : Env Pmap :=
  {| strtol := strtol_model;
     pgdir_walk := toy_walk;
     page_lookup := toy_lookup;
     pte_load := toy_pte;
     page2pa := fun pp => pp * 4096;
     pp_ref := fun _ _ => 1;
     PTE_W := 2;
     PTE_U := 4;
     mem := memory;
     read_ebp := ebp;
     debuginfo_eip := fun _ => symbol;
     sym_start := 1048588;
     sym_entry := 4027580428;
     sym_etext := 4027587000;
     sym_edata := 4027650000;
     sym_end := 4027660000;
     KERNBASE := 4026531840 |}.

(** Page 0x1000 mapped writable and user-accessible at 0x5000; nothing
    else mapped. *)
Definition pages : Pmap := [(1, 20487)].

(** A stack of two frames: the frame at 0x7000 was called from the one at
    0x7040, which is the outermost. *)
Definition stack (a : Z) : Z :=
  if a =? 28672 then 28736
  else if a =? 28676 then 4027580520
  else if a =? 28680 then 1
  else if a =? 28684 then 2
  else if a =? 28736 then 0
  else if a =? 28740 then 4027580600
  else 0.

(** A frame whose saved frame pointer points back at itself. *)
Definition looped (a : Z) : Z := if a =? 28672 then 28672 else 0.

(** The kernel stopped in the frame at 0x7000, and stopped in the frame that
    points back at itself. *)
Definition E0 : Env Pmap := env stack 28672.
Definition Eloop : Env Pmap := env looped 28672.

(** A table with a command that asks the monitor to exit. *)
Definition quit : @Command Pmap :=
  {| name := "quit"; desc := "Leave the monitor"; func := fun _ _ => ret (-1) |}.

Definition table : list (@Command Pmap) := quit :: commands E0.

(** A line of two words and a line of sixteen. *)
Definition two_words : list (string * string) := [("help", "  "); ("me", " ")].
Definition sixteen_words : list (string * string) := repeat ("a", " ") 16.

End Demo.

(** * More vocabulary: the characters of a buffer *)

(** The characters of a buffer before its terminating NUL. *)
Fixpoint c_chars (buf : string) : string :=
  match buf with
  | EmptyString => EmptyString
  | String c rest => if is_nul c then EmptyString else String c (c_chars rest)
  end.

(** A string without its blanks. *)
Fixpoint non_blanks (s : string) : string :=
  match s with
  | EmptyString => EmptyString
  | String c rest =>
      if blank_char c then non_blanks rest else String c (non_blanks rest)
  end.

(** The arguments written one after the other. *)
Fixpoint join_args (argv : list string) : string :=
  match argv with
  | [] => EmptyString
  | a :: rest => String.append a (join_args rest)
  end.

(** The line that [mon_help] prints for a command. *)
Definition help_line {Pmap : Type} (c : @Command Pmap) : event :=
  Cprintf (ln "%s - %s") [AStr (name c); AStr (desc c)].

(** * Properties of the tokenizer *)


Lemma blank_char_not_nul c : blank_char c = true -> is_nul c = false.
Proof.
  unfold blank_char, is_nul, WHITESPACE. simpl.
  destruct (Ascii.eqb c "000") eqn:Hc; [|reflexivity].
  apply Ascii.eqb_eq in Hc. subst c. simpl. discriminate.
Qed.

Lemma word_char_not_blank c : word_char c = true -> blank_char c = false /\ is_nul c = false.
Proof.
  unfold word_char, blank_char. intros H.
  apply andb_true_iff in H. destruct H as [H1 H2].
  apply negb_true_iff in H1, H2. auto.
Qed.

(** What [gobble] and the test [*buf == 0] see at the start of a word. *)
Lemma gobble_word_start c s : word_char c = true -> gobble (String c s) = String c s.
Proof.
  intros H. apply word_char_not_blank in H. destruct H as [Hb Hn].
  cbn [gobble]. unfold blank_char in Hb. rewrite Hb, Hn. reflexivity.
Qed.

Lemma gobble_blank ws s : blank ws -> gobble (String.append ws s) = gobble s.
Proof.
  unfold blank. induction ws as [|c ws IH]; cbn [all_chars String.append gobble];
    intros H; [reflexivity|].
  apply andb_true_iff in H. destruct H as [Hc Hws].
  rewrite (blank_char_not_nul _ Hc). unfold blank_char in Hc. rewrite Hc.
  cbn [negb andb]. auto.
Qed.


Lemma scan_arg_word t s :
  all_chars word_char t = true -> stops_scan s -> scan_arg (String.append t s) = (t, s).
Proof.
  induction t as [|c t IH]; cbn [all_chars String.append scan_arg]; intros Ht Hs.
  - destruct s as [|d s]; [reflexivity|].
    cbn [stops_scan] in Hs. unfold word_char in Hs. cbn [scan_arg].
    rewrite Hs. reflexivity.
  - apply andb_true_iff in Ht. destruct Ht as [Hc Ht].
    unfold word_char in Hc. rewrite Hc. rewrite (IH Ht Hs). reflexivity.
Qed.

Lemma blank_stops_scan ws s : blank ws -> ws <> EmptyString -> stops_scan (String.append ws s).
Proof.
  destruct ws as [|c ws]; [congruence|]. unfold blank.
  cbn [all_chars String.append stops_scan]. intros H _.
  apply andb_true_iff in H. destruct H as [Hc _].
  unfold word_char. unfold blank_char in Hc. rewrite Hc.
  rewrite andb_false_r. reflexivity.
Qed.

Lemma line_stops_scan sep rest :
  blank sep -> (rest <> [] -> sep <> EmptyString) -> stops_scan (line sep rest).
Proof.
  intros Hb Hne. destruct rest as [|[t s] rest].
  - cbn [line]. destruct sep as [|c sep]; cbn [String.append stops_scan]; [exact I|].
    unfold blank in Hb. cbn [all_chars] in Hb.
    apply andb_true_iff in Hb. destruct Hb as [Hc _].
    unfold word_char. unfold blank_char in Hc. rewrite Hc.
    rewrite andb_false_r. reflexivity.
  - cbn [line]. apply blank_stops_scan; [assumption|]. apply Hne. discriminate.
Qed.

(** One round of the loop on a line that still holds a word. *)
Lemma parse_loop_step f lead t sep rest argv :
  blank lead -> word t -> blank sep -> (rest <> [] -> sep <> EmptyString) ->
  parse_loop (S f) (line lead ((t, sep) :: rest)) argv =
    if Z.of_nat (List.length argv) =? MAXARGS - 1 then Some TooMany
    else parse_loop f (line sep rest) (argv ++ [t]).
Proof.
  intros Hl [Hne Ht] Hs Hsep.
  cbn [parse_loop line]. rewrite (gobble_blank _ _ Hl).
  destruct t as [|c t]; [congruence|]. cbn [String.append].
  cbn [all_chars] in Ht. apply andb_true_iff in Ht. destruct Ht as [Hc Ht].
  rewrite (gobble_word_start _ _ Hc).
  cbn [at_end]. rewrite (proj2 (word_char_not_blank _ Hc)).
  destruct (Z.of_nat (List.length argv) =? MAXARGS - 1); [reflexivity|].
  change (String c (String.append t (line sep rest)))
    with (String.append (String c t) (line sep rest)).
  rewrite scan_arg_word; [reflexivity| |].
  - cbn [all_chars]. rewrite Hc, Ht. reflexivity.
  - apply line_stops_scan; assumption.
Qed.

Lemma parse_loop_end f lead argv :
  blank lead -> parse_loop (S f) (line lead []) argv = Some (Args argv).
Proof.
  intros Hl. cbn [parse_loop line]. rewrite (gobble_blank _ _ Hl). reflexivity.
Qed.

(** With room for every word, the loop saves them all, in order. *)
Lemma parse_loop_fits toks : forall f lead argv,
  blank lead -> well_spaced toks ->
  (List.length toks < f)%nat ->
  (List.length argv + List.length toks <= 15)%nat ->
  parse_loop f (line lead toks) argv = Some (Args (argv ++ map fst toks)).
Proof.
  induction toks as [|[t sep] rest IH]; intros f lead argv Hl Hw Hf Hn.
  - destruct f as [|f]; [simpl in Hf; lia|].
    rewrite parse_loop_end by assumption. simpl. rewrite app_nil_r. reflexivity.
  - destruct f as [|f]; [simpl in Hf; lia|].
    destruct Hw as (Ht & Hs & Hne & Hw). simpl in Hf, Hn.
    rewrite parse_loop_step by assumption.
    replace (Z.of_nat (List.length argv) =? MAXARGS - 1) with false
      by (symmetry; apply Z.eqb_neq; unfold MAXARGS; lia).
    rewrite IH; try assumption; [| lia | rewrite length_app; simpl; lia].
    simpl. rewrite <- app_assoc. reflexivity.
Qed.

(** When a sixteenth word is met the loop gives up. *)
Lemma parse_loop_overflow toks : forall f lead argv,
  blank lead -> well_spaced toks ->
  (List.length toks < f)%nat ->
  (List.length argv <= 15)%nat ->
  (16 <= List.length argv + List.length toks)%nat ->
  parse_loop f (line lead toks) argv = Some TooMany.
Proof.
  induction toks as [|[t sep] rest IH]; intros f lead argv Hl Hw Hf Hn Hm.
  - simpl in Hm. lia.
  - destruct f as [|f]; [simpl in Hf; lia|].
    destruct Hw as (Ht & Hs & Hne & Hw). simpl in Hf, Hm.
    rewrite parse_loop_step by assumption.
    destruct (Z.of_nat (List.length argv) =? MAXARGS - 1) eqn:Hc; [reflexivity|].
    apply Z.eqb_neq in Hc. unfold MAXARGS in Hc.
    apply IH; try assumption; try lia; rewrite length_app; simpl; lia.
Qed.

Lemma append_length a b :
  String.length (String.append a b) = (String.length a + String.length b)%nat.
Proof. induction a; simpl; congruence. Qed.

(** The fuel [parse_args] starts with covers one round per word and the
    last one. *)
Lemma line_length toks : forall lead,
  well_spaced toks -> (List.length toks <= String.length (line lead toks))%nat.
Proof.
  induction toks as [|[t sep] rest IH]; intros lead Hw; [simpl; lia|].
  destruct Hw as ([Hne _] & _ & _ & Hw). cbn [line List.length].
  rewrite !append_length. specialize (IH sep Hw).
  destruct t; [congruence|]. simpl. lia.
Qed.


(** The loop of [runcmd] always leaves by its [break] or its [return]. *)

Lemma gobble_length buf : (String.length (gobble buf) <= String.length buf)%nat.
Proof.
  induction buf as [|c buf IH]; cbn [gobble]; [lia|].
  destruct (negb (is_nul c) && strchr WHITESPACE c); simpl; lia.
Qed.

Lemma scan_arg_length buf :
  (String.length (snd (scan_arg buf)) <= String.length buf)%nat.
Proof.
  induction buf as [|c buf IH]; cbn [scan_arg]; [simpl; lia|].
  destruct (negb (is_nul c) && negb (strchr WHITESPACE c)); [|simpl; lia].
  destruct (scan_arg buf) as [a r]. simpl in *. lia.
Qed.

Lemma scan_arg_progress buf :
  at_end (gobble buf) = false ->
  (String.length (snd (scan_arg (gobble buf))) < String.length buf)%nat.
Proof.
  intros Hend. pose proof (gobble_length buf) as Hg.
  assert (Hw : exists c s, gobble buf = String c s /\ word_char c = true).
  { clear Hg. induction buf as [|c buf IH]; cbn [gobble] in *; [discriminate|].
    destruct (negb (is_nul c) && strchr WHITESPACE c) eqn:Hc; [auto|].
    exists c, buf. split; [reflexivity|]. cbn [at_end] in Hend.
    unfold word_char. rewrite Hend in *. simpl in *. rewrite Hc. reflexivity. }
  destruct Hw as (c & s & Heq & Hc). rewrite Heq in *.
  cbn [scan_arg]. unfold word_char in Hc. rewrite Hc.
  pose proof (scan_arg_length s) as Hs.
  destruct (scan_arg s) as [a r]. simpl in *. lia.
Qed.

Lemma parse_loop_total f : forall buf argv,
  (String.length buf < f)%nat -> parse_loop f buf argv <> None.
Proof.
  induction f as [|f IH]; intros buf argv Hf; [lia|].
  cbn [parse_loop].
  destruct (at_end (gobble buf)) eqn:Hend; [discriminate|].
  destruct (Z.of_nat (List.length argv) =? MAXARGS - 1); [discriminate|].
  pose proof (scan_arg_progress buf Hend) as Hp.
  destruct (scan_arg (gobble buf)) as [a rest]. apply IH. simpl in Hp. lia.
Qed.

Lemma parse_args_total buf : parse_args buf <> None.
Proof. apply parse_loop_total. lia. Qed.

(** The arguments saved by the loop are never more than fifteen. *)
Lemma parse_loop_bound f : forall buf argv argv',
  (List.length argv <= 15)%nat ->
  parse_loop f buf argv = Some (Args argv') -> (List.length argv' <= 15)%nat.
Proof.
  induction f as [|f IH]; intros buf argv argv' Hn; cbn [parse_loop]; [discriminate|].
  destruct (at_end (gobble buf)); [intros H; injection H as <-; assumption|].
  destruct (Z.of_nat (List.length argv) =? MAXARGS - 1) eqn:Hc; [discriminate|].
  apply Z.eqb_neq in Hc. unfold MAXARGS in Hc.
  destruct (scan_arg (gobble buf)) as [a rest]. apply IH.
  rewrite length_app. simpl. lia.
Qed.

(** * C5: what [runcmd] makes of a line of words *)

(** C5.  A line of N words separated by blanks, N <= 15, is split into exactly
    these N words in their order, and [runcmd] goes on to the command lookup
    with them; a line of sixteen words (or more) makes [runcmd] print
    "Too many arguments (max 16)" and return 0, the state untouched and no
    handler called, so that the monitor loop goes on. *)
Theorem runcmd_splits_line :
  forall (Pmap : Type) (cmds : list (@Command Pmap)) (fuel : nat)
         (lead : string) (toks : list (string * string)),
    blank lead -> well_spaced toks ->
    ((List.length toks <= 15)%nat ->
       parse_args (line lead toks) = Some (Args (map fst toks)) /\
       List.length (map fst toks) = List.length toks /\
       runcmd cmds fuel (line lead toks) = dispatch cmds fuel (map fst toks)) /\
    ((16 <= List.length toks)%nat ->
       parse_args (line lead toks) = Some TooMany /\
       forall s : Pmap,
         runcmd cmds fuel (line lead toks) s =
           Returned 0 s [Cprintf (ln "Too many arguments (max %d)") [AInt 16]] /\
         monitor_loop cmds fuel [Some (line lead toks)] s =
           Returned Running s [Cprintf (ln "Too many arguments (max %d)") [AInt 16]]).
Proof.
  intros Pmap cmds fuel lead toks Hl Hw.
  pose proof (line_length toks lead Hw) as Hlen.
  split; intros Hn.
  - assert (Hp : parse_args (line lead toks) = Some (Args (map fst toks))).
    { unfold parse_args. rewrite parse_loop_fits; auto. simpl. lia. }
    split; [exact Hp|]. split; [apply length_map|].
    unfold runcmd. rewrite Hp. reflexivity.
  - assert (Hp : parse_args (line lead toks) = Some TooMany).
    { unfold parse_args. apply parse_loop_overflow; auto; simpl; lia. }
    split; [exact Hp|]. intros s.
    assert (Hr : runcmd cmds fuel (line lead toks) s =
                 Returned 0 s [Cprintf (ln "Too many arguments (max %d)") [AInt 16]]).
    { unfold runcmd. rewrite Hp. reflexivity. }
    split; [exact Hr|].
    cbn [monitor_loop]. unfold bind at 1. rewrite Hr. reflexivity.
Qed.


(** * Reasoning about runs *)

Section Runs.

Context {Pmap : Type}.

Lemma state_of_bind {A B} (m : M Pmap A) (k : A -> M Pmap B) s :
  state_of (bind m k s) =
    match m s with
    | Returned a s1 _ => state_of (k a s1)
    | Unfinished s1 _ => s1
    end.
Proof.
  unfold bind. destruct (m s) as [a s1 t1|s1 t1]; [|reflexivity].
  destruct (k a s1); reflexivity.
Qed.

Lemma trace_of_bind {A B} (m : M Pmap A) (k : A -> M Pmap B) s :
  trace_of (bind m k s) =
    match m s with
    | Returned a s1 t1 => t1 ++ trace_of (k a s1)
    | Unfinished _ t1 => t1
    end.
Proof.
  unfold bind. destruct (m s) as [a s1 t1|s1 t1]; [|reflexivity].
  destruct (k a s1); reflexivity.
Qed.

Lemma bind_returned {A B} (m : M Pmap A) (k : A -> M Pmap B) s a s1 t1 b s2 t2 :
  m s = Returned a s1 t1 -> k a s1 = Returned b s2 t2 ->
  bind m k s = Returned b s2 (t1 ++ t2).
Proof. intros Hm Hk. unfold bind. rewrite Hm, Hk. reflexivity. Qed.

Lemma bind_ret_trace {A B} (m : M Pmap A) (b : B) s :
  trace_of (bind m (fun _ => ret b) s) = trace_of (m s) /\
  state_of (bind m (fun _ => ret b) s) = state_of (m s).
Proof.
  unfold bind, ret. destruct (m s) as [a s1 t1|s1 t1]; simpl;
    rewrite ?app_nil_r; auto.
Qed.

Lemma bind_ret_returned {A B} (m : M Pmap A) (b : B) s a s1 t1 :
  m s = Returned a s1 t1 -> bind m (fun _ => ret b) s = Returned b s1 t1.
Proof. intros Hm. unfold bind, ret. rewrite Hm, app_nil_r. reflexivity. Qed.

End Runs.

(** * The range walk of [mon_showva2pa] *)

Lemma wrap32_range z : 0 <= wrap32 z < 2 ^ 32.
Proof. unfold wrap32. apply Z.mod_pos_bound. lia. Qed.

Section RangeWalk.

Context {Pmap : Type} (E : Env Pmap).


Lemma visit_walked va t : visit va t -> walked t = [va].
Proof. destruct 1; reflexivity. Qed.

Lemma visit_reported va t : visit va t -> reported t = [va].
Proof. destruct 1; reflexivity. Qed.

Lemma visit_printed va t : visit va t -> List.length (printed t) = 1%nat.
Proof. destruct 1; reflexivity. Qed.

Lemma visit_no_create va t : visit va t -> Forall no_create t.
Proof. destruct 1; repeat constructor. Qed.

Lemma walked_app t1 t2 : walked (t1 ++ t2) = walked t1 ++ walked t2.
Proof. apply flat_map_app. Qed.

Lemma reported_app t1 t2 : reported (t1 ++ t2) = reported t1 ++ reported t2.
Proof. apply flat_map_app. Qed.

Lemma printed_app t1 t2 : printed (t1 ++ t2) = printed t1 ++ printed t2.
Proof. apply filter_app. Qed.

Lemma visits_walked vas t : visits vas t -> walked t = vas.
Proof.
  induction 1 as [|va vas t1 t2 H1 _ IH]; [reflexivity|].
  rewrite walked_app, (visit_walked _ _ H1), IH. reflexivity.
Qed.

Lemma visits_reported vas t : visits vas t -> reported t = vas.
Proof.
  induction 1 as [|va vas t1 t2 H1 _ IH]; [reflexivity|].
  rewrite reported_app, (visit_reported _ _ H1), IH. reflexivity.
Qed.

Lemma visits_printed vas t : visits vas t -> List.length (printed t) = List.length vas.
Proof.
  induction 1 as [|va vas t1 t2 H1 _ IH]; [reflexivity|].
  rewrite printed_app, length_app, (visit_printed _ _ H1), IH. reflexivity.
Qed.

Lemma visits_no_create vas t : visits vas t -> Forall no_create t.
Proof.
  induction 1 as [|va vas t1 t2 H1 _ IH]; [constructor|].
  apply Forall_app. split; [eapply visit_no_create; eassumption | assumption].
Qed.

(** One round always returns, having walked and reported on [va] once. *)
Lemma showva2pa_body_visit va s :
  exists s' t,
    showva2pa_body E va s = Returned tt s' t /\ visit va t /\ (read_only E -> s' = s).
Proof.
  unfold showva2pa_body, bind, call_pgdir_walk, call_page_lookup, read_pte,
    read_pp_ref, cprintf.
  pose proof (fun H : read_only E => proj1 H s va) as Hw.
  destruct (pgdir_walk E s va 0) as [s1 [e|]]; simpl in Hw.
  - pose proof (fun H : read_only E => proj2 H s1 va) as Hl.
    destruct (page_lookup E s1 va) as [s2 [[va_page entry]|]]; simpl in Hl.
    + eexists _, _. split; [reflexivity|]. split; [apply visit_mapped|].
      intros H. rewrite (Hl H). auto.
    + eexists _, _. split; [reflexivity|]. split; [apply visit_no_page|].
      intros H. rewrite (Hl H). auto.
  - eexists _, _. split; [reflexivity|]. split; [apply visit_no_entry|]. auto.
Qed.

(** Whatever the fuel, the loop has so far done whole rounds only. *)
Lemma showva2pa_loop_visits va_high fuel : forall va s,
  exists vas,
    visits vas (trace_of (showva2pa_loop E fuel va va_high s)) /\
    (read_only E -> state_of (showva2pa_loop E fuel va va_high s) = s).
Proof.
  induction fuel as [|f IH]; intros va s; cbn [showva2pa_loop].
  - destruct (va <=? va_high); exists []; split; try constructor; reflexivity.
  - destruct (va <=? va_high); [|exists []; split; [constructor | reflexivity]].
    destruct (showva2pa_body_visit va s) as (s1 & t1 & Hb & Hv & Hs).
    destruct (IH (ptr_add sizeof_uintptr_t va 1024) s1) as (vas & Hvs & Hss).
    exists (va :: vas). rewrite trace_of_bind, state_of_bind, Hb. split.
    + constructor; assumption.
    + intros H. rewrite (Hss H). auto.
Qed.

(** Below the top of the address space the loop returns after one round per
    step from [lo] to [hi]. *)
Lemma showva2pa_loop_returns hi count : forall fuel lo s,
  0 <= lo -> hi + stride < 2 ^ 32 ->
  lo + stride * (Z.of_nat count - 1) <= hi < lo + stride * Z.of_nat count ->
  (count <= fuel)%nat ->
  exists s' t,
    showva2pa_loop E fuel lo hi s = Returned tt s' t /\
    visits (strides stride lo count) t.
Proof.
  unfold stride, sizeof_uintptr_t.
  induction count as [|c IH]; intros fuel lo s Hlo Hhi Hc Hf.
  - exists s, []. split; [|constructor].
    replace (showva2pa_loop E fuel lo hi) with (@ret Pmap unit tt); [reflexivity|].
    destruct fuel; cbn [showva2pa_loop];
      replace (lo <=? hi) with false by (symmetry; apply Z.leb_gt; lia); reflexivity.
  - destruct fuel as [|f]; [lia|]. cbn [showva2pa_loop].
    replace (lo <=? hi) with true by (symmetry; apply Z.leb_le; lia).
    destruct (showva2pa_body_visit lo s) as (s1 & t1 & Hb & Hv & _).
    assert (Hnext : ptr_add sizeof_uintptr_t lo 1024 = lo + 1024 * 4).
    { unfold ptr_add, sizeof_uintptr_t, wrap32. rewrite Z.mod_small; lia. }
    rewrite Hnext.
    destruct (IH f (lo + 1024 * 4) s1) as (s2 & t2 & Hl & Hvs); try lia.
    exists s2, (t1 ++ t2). split.
    + eapply bind_returned; eassumption.
    + cbn [strides]. constructor; assumption.
Qed.

Lemma strides_In step lo count x :
  In x (strides step lo count) <->
  exists k, 0 <= k < Z.of_nat count /\ x = lo + step * k.
Proof.
  revert lo. induction count as [|c IH]; intros lo; cbn [strides In].
  - split; [tauto|]. intros (k & Hk & _). lia.
  - rewrite IH. split.
    + intros [<-|(k & Hk & ->)]; [exists 0; lia | exists (k + 1); lia].
    + intros (k & Hk & ->). destruct (Z.eq_dec k 0) as [->|Hne].
      * left. lia.
      * right. exists (k - 1). lia.
Qed.

(** How the handler reads its arguments. *)
Lemma mon_showva2pa_single fuel c a :
  mon_showva2pa E fuel [c; a] =
    (showva2pa_loop E fuel (wrap32 (strtol E a 16)) (wrap32 (strtol E a 16)) ;; ret 0).
Proof. reflexivity. Qed.

Lemma mon_showva2pa_pair fuel c a b :
  mon_showva2pa E fuel [c; a; b] =
    (showva2pa_loop E fuel
       (Z.min (wrap32 (strtol E a 16)) (wrap32 (strtol E b 16)))
       (Z.max (wrap32 (strtol E a 16)) (wrap32 (strtol E b 16))) ;; ret 0).
Proof.
  change (mon_showva2pa E fuel [c; a; b]) with
    (let '(va_low, va_high) :=
       if wrap32 (strtol E a 16) >? wrap32 (strtol E b 16)
       then (wrap32 (strtol E b 16), wrap32 (strtol E a 16))
       else (wrap32 (strtol E a 16), wrap32 (strtol E b 16)) in
     showva2pa_loop E fuel va_low va_high ;; ret 0).
  destruct (wrap32 (strtol E a 16) >? wrap32 (strtol E b 16)) eqn:Hc.
  - rewrite Z.gtb_gt in Hc. rewrite Z.min_r, Z.max_l by lia. reflexivity.
  - rewrite Z.gtb_ltb, Z.ltb_ge in Hc. rewrite Z.min_l, Z.max_r by lia. reflexivity.
Qed.

(** A range that reaches into the last page is never left: the address
    wraps around to the bottom of the address space and is again below the
    upper end. *)
Lemma showva2pa_loop_last_page hi fuel : forall va s,
  2 ^ 32 - stride <= hi ->
  0 <= va < 2 ^ 32 -> va mod stride = 0 ->
  exists s' t, showva2pa_loop E fuel va hi s = Unfinished s' t.
Proof.
  unfold stride, sizeof_uintptr_t. change (1024 * 4) with 4096.
  induction fuel as [|f IH]; intros va s Hhi Hva Hal.
  - assert (Hle : va <= hi).
    { pose proof (Z.div_mod va 4096 ltac:(lia)). lia. }
    cbn [showva2pa_loop]. rewrite (proj2 (Z.leb_le _ _) Hle).
    eexists _, _. reflexivity.
  - assert (Hle : va <= hi).
    { pose proof (Z.div_mod va 4096 ltac:(lia)). lia. }
    cbn [showva2pa_loop]. rewrite (proj2 (Z.leb_le _ _) Hle).
    destruct (showva2pa_body_visit va s) as (s1 & t1 & Hb & _ & _).
    assert (Hnext : 0 <= ptr_add sizeof_uintptr_t va 1024 < 2 ^ 32 /\
                    ptr_add sizeof_uintptr_t va 1024 mod 4096 = 0).
    { unfold ptr_add, sizeof_uintptr_t. split; [apply wrap32_range|]. unfold wrap32.
      pose proof (Z.div_mod va 4096 ltac:(lia)) as Hd.
      destruct (Z_lt_dec (va + 1024 * 4) (2 ^ 32)) as [Hlt|Hge].
      - rewrite (Z.mod_small (va + 1024 * 4) (2 ^ 32)) by lia.
        replace (va + 1024 * 4) with (va + 1 * 4096) by lia.
        rewrite Z_mod_plus_full. exact Hal.
      - replace (va + 1024 * 4) with (2 ^ 32) by lia. reflexivity. }
    destruct Hnext as [Hr Ha].
    destruct (IH (ptr_add sizeof_uintptr_t va 1024) s1 Hhi Hr Ha) as (s2 & t2 & Hl).
    exists s2, (t1 ++ t2). unfold bind. rewrite Hb, Hl. reflexivity.
Qed.

End RangeWalk.

(** * C1, C4, C6, C9, C10: the address range inspector *)

Section Inspector.

Context {Pmap : Type} (E : Env Pmap).

(** The run of the handler on a range that ends below the last page. *)
Lemma mon_showva2pa_pair_returns fuel c a b s :
  let lo := Z.min (wrap32 (strtol E a 16)) (wrap32 (strtol E b 16)) in
  let hi := Z.max (wrap32 (strtol E a 16)) (wrap32 (strtol E b 16)) in
  let n := Z.to_nat ((hi - lo) / stride) in
  hi + stride < 2 ^ 32 -> (n < fuel)%nat ->
  exists s' t,
    mon_showva2pa E fuel [c; a; b] s = Returned 0 s' t /\
    visits (strides stride lo (S n)) t.
Proof.
  intros lo hi n Hhi Hf.
  pose proof (wrap32_range (strtol E a 16)) as Ha.
  pose proof (wrap32_range (strtol E b 16)) as Hb.
  assert (Hlo : 0 <= lo <= hi) by (unfold lo, hi; lia).
  assert (Hs : stride = 4096) by reflexivity.
  assert (Hn : Z.of_nat n = (hi - lo) / stride).
  { unfold n. rewrite Z2Nat.id; [reflexivity|]. apply Z.div_pos; lia. }
  pose proof (Z.div_mod (hi - lo) stride ltac:(lia)) as Hdm.
  pose proof (Z.mod_pos_bound (hi - lo) stride ltac:(lia)) as Hm.
  destruct (showva2pa_loop_returns E hi (S n) fuel lo s) as (s' & t & Hl & Hv);
    try lia.
  exists s', t. split; [|assumption].
  rewrite mon_showva2pa_pair. fold lo hi.
  eapply bind_ret_returned. exact Hl.
Qed.

End Inspector.

(** C1 (as the code has it).  For a range [lo, hi] that ends below the last
    page of the address space, the walk starts at [lo] and goes upward in
    steps of 4096 bytes (1024 elements of [uintptr_t]) while the address is
    at most [hi]; every address it visits is walked once and produces exactly
    one report line, and [hi] itself is visited exactly when it lies a whole
    number of steps above [lo]. *)
Theorem showva2pa_walk_strides :
  forall (Pmap : Type) (E : Env Pmap) (fuel : nat) (c a b : string) (s : Pmap),
    let lo := Z.min (wrap32 (strtol E a 16)) (wrap32 (strtol E b 16)) in
    let hi := Z.max (wrap32 (strtol E a 16)) (wrap32 (strtol E b 16)) in
    let n := Z.to_nat ((hi - lo) / stride) in
    hi + stride < 2 ^ 32 -> (n < fuel)%nat ->
    stride = 4096 /\
    exists s' t,
      mon_showva2pa E fuel [c; a; b] s = Returned 0 s' t /\
      walked t = strides stride lo (S n) /\
      reported t = walked t /\
      List.length (printed t) = List.length (walked t) /\
      (forall x, In x (walked t) <-> exists k, 0 <= k /\ x = lo + stride * k /\ x <= hi) /\
      (In hi (walked t) <-> (hi - lo) mod stride = 0).
Proof.
  intros Pmap E fuel c a b s lo hi n Hhi Hf.
  split; [reflexivity|].
  destruct (mon_showva2pa_pair_returns E fuel c a b s Hhi Hf) as (s' & t & Hr & Hv).
  fold lo hi n in Hv.
  pose proof (wrap32_range (strtol E a 16)) as Ha.
  pose proof (wrap32_range (strtol E b 16)) as Hb.
  assert (Hlo : 0 <= lo <= hi) by (unfold lo, hi; lia).
  assert (Hs : stride = 4096) by reflexivity.
  assert (Hn : Z.of_nat n = (hi - lo) / stride).
  { unfold n. rewrite Z2Nat.id; [reflexivity|]. apply Z.div_pos; lia. }
  pose proof (Z.div_mod (hi - lo) stride ltac:(lia)) as Hdm.
  pose proof (Z.mod_pos_bound (hi - lo) stride ltac:(lia)) as Hm.
  exists s', t. split; [exact Hr|].
  rewrite (visits_reported _ _ Hv), (visits_printed _ _ Hv), (visits_walked _ _ Hv).
  repeat split; try reflexivity.
  - rewrite strides_In. intros (k & Hk & ->). exists k.
    rewrite Nat2Z.inj_succ, Hn in Hk. nia.
  - intros (k & Hk & -> & Hle). apply strides_In. exists k.
    rewrite Nat2Z.inj_succ, Hn. split; [|reflexivity].
    split; [lia|]. apply Z.lt_succ_r. apply Z.div_le_lower_bound; lia.
  - rewrite strides_In. intros (k & Hk & Heq).
    replace (hi - lo) with (k * stride) by lia. apply Z.mod_mul. lia.
  - intros H0. apply strides_In. exists ((hi - lo) / stride).
    rewrite Nat2Z.inj_succ, Hn. split; [|lia].
    split; [apply Z.div_pos; lia | lia].
Qed.

(** C4.  With two address tokens the result does not depend on their order:
    both runs are the walk of the range from the smaller to the larger
    address, and they return the same value, state and output. *)
Theorem showva2pa_order_independent :
  forall (Pmap : Type) (E : Env Pmap) (fuel : nat) (c a b : string) (s : Pmap),
    let lo := Z.min (wrap32 (strtol E a 16)) (wrap32 (strtol E b 16)) in
    let hi := Z.max (wrap32 (strtol E a 16)) (wrap32 (strtol E b 16)) in
    mon_showva2pa E fuel [c; a; b] s = mon_showva2pa E fuel [c; b; a] s /\
    mon_showva2pa E fuel [c; a; b] s = (showva2pa_loop E fuel lo hi ;; ret 0) s /\
    (hi + stride < 2 ^ 32 -> (Z.to_nat ((hi - lo) / stride) < fuel)%nat ->
     exists s' t,
       mon_showva2pa E fuel [c; a; b] s = Returned 0 s' t /\
       mon_showva2pa E fuel [c; b; a] s = Returned 0 s' t).
Proof.
  intros Pmap E fuel c a b s lo hi.
  assert (Hswap : mon_showva2pa E fuel [c; a; b] s = mon_showva2pa E fuel [c; b; a] s).
  { rewrite !mon_showva2pa_pair.
    rewrite (Z.min_comm (wrap32 (strtol E b 16))), (Z.max_comm (wrap32 (strtol E b 16))).
    reflexivity. }
  split; [exact Hswap|]. split; [rewrite mon_showva2pa_pair; reflexivity|].
  intros Hhi Hf.
  destruct (mon_showva2pa_pair_returns E fuel c a b s Hhi Hf) as (s' & t & Hr & _).
  exists s', t. split; [exact Hr|]. rewrite <- Hswap. exact Hr.
Qed.

(** C6 (as the code has it).  Called with the command name alone the handler
    prints "At least one argument." and called with three address tokens or
    more it prints "Too many arguments (max 2)"; in both cases it returns 0
    with the state as it was and without any call into the page-table code. *)
Theorem mon_showva2pa_wrong_arity :
  forall (Pmap : Type) (E : Env Pmap) (fuel : nat) (c : string) (s : Pmap),
    mon_showva2pa E fuel [c] s =
      Returned 0 s [Cprintf (ln "At least one argument.") []] /\
    queries (trace_of (mon_showva2pa E fuel [c] s)) = [] /\
    forall (a1 a2 a3 : string) (more : list string),
      mon_showva2pa E fuel (c :: a1 :: a2 :: a3 :: more) s =
        Returned 0 s [Cprintf (ln "Too many arguments (max %d)") [AInt 2]] /\
      queries (trace_of (mon_showva2pa E fuel (c :: a1 :: a2 :: a3 :: more) s)) = [].
Proof.
  intros Pmap E fuel c s. split; [reflexivity|]. split; [reflexivity|].
  intros a1 a2 a3 more.
  assert (H : mon_showva2pa E fuel (c :: a1 :: a2 :: a3 :: more) s =
              Returned 0 s [Cprintf (ln "Too many arguments (max %d)") [AInt 2]]).
  { unfold mon_showva2pa.
    replace (Z.of_nat (List.length (c :: a1 :: a2 :: a3 :: more)) =? 1) with false
      by (symmetry; apply Z.eqb_neq; simpl List.length; lia).
    replace (Z.of_nat (List.length (c :: a1 :: a2 :: a3 :: more)) >=? 4) with true
      by (symmetry; rewrite Z.geb_leb; apply Z.leb_le; simpl List.length; lia).
    reflexivity. }
  rewrite H. split; reflexivity.
Qed.

(** C9.  Whatever the arguments and however long it runs, the handler asks
    [pgdir_walk] only with the create flag 0, and when the page-table code
    leaves the state alone on such calls, so does the handler: the state
    after the run, finished or not, is the state before. *)
Theorem mon_showva2pa_observes_only :
  forall (Pmap : Type) (E : Env Pmap) (fuel : nat) (argv : list string) (s : Pmap),
    Forall no_create (trace_of (mon_showva2pa E fuel argv s)) /\
    (read_only E -> state_of (mon_showva2pa E fuel argv s) = s).
Proof.
  intros Pmap E fuel argv s. unfold mon_showva2pa.
  destruct (Z.of_nat (List.length argv) =? 1).
  { split; [repeat constructor | reflexivity]. }
  destruct (Z.of_nat (List.length argv) >=? 4).
  { split; [repeat constructor | reflexivity]. }
  match goal with |- context [let '(x, y) := ?p in _] => destruct p as [lo hi] end.
  destruct (bind_ret_trace (showva2pa_loop E fuel lo hi) 0 s) as [Ht Hs].
  rewrite Ht, Hs.
  destruct (showva2pa_loop_visits E hi fuel lo s) as (vas & Hv & Hst).
  split; [eapply visits_no_create; eassumption | exact Hst].
Qed.

Lemma visits_report_lines vas t : visits vas t -> Forall report_line t.
Proof.
  induction 1 as [|va vas t1 t2 H1 _ IH]; [constructor|].
  apply Forall_app. split; [|assumption].
  destruct H1; repeat (apply Forall_cons || apply Forall_nil); cbn [report_line]; auto.
Qed.

(** With fuel for one round, the first round is on the lower end. *)
Lemma showva2pa_loop_first {Pmap} (E : Env Pmap) fuel va va_high s :
  va <= va_high -> (1 <= fuel)%nat ->
  exists vas, visits (va :: vas) (trace_of (showva2pa_loop E fuel va va_high s)).
Proof.
  intros Hle Hf. destruct fuel as [|f]; [lia|]. cbn [showva2pa_loop].
  rewrite (proj2 (Z.leb_le _ _) Hle).
  destruct (showva2pa_body_visit E va s) as (s1 & t1 & Hb & Hv & _).
  destruct (showva2pa_loop_visits E va_high f (ptr_add sizeof_uintptr_t va 1024) s1)
    as (vas & Hvs & _).
  exists vas. rewrite trace_of_bind, Hb. constructor; assumption.
Qed.

Lemma digit_free_blanks tok : digit_free tok -> digit_free (strtol_blanks tok).
Proof.
  unfold digit_free. induction tok as [|c tok IH]; cbn [strtol_blanks]; [auto|].
  destruct (Ascii.eqb c " " || Ascii.eqb c "009"); [|auto].
  cbn [all_chars]. intros H. apply andb_true_iff in H. apply IH. apply H.
Qed.

Lemma digit_free_sign tok : digit_free tok -> digit_free (snd (strtol_sign tok)).
Proof.
  unfold digit_free. destruct tok as [|c tok]; cbn [strtol_sign]; [auto|].
  destruct (Ascii.eqb c "+"); [|destruct (Ascii.eqb c "-")]; cbn [snd all_chars]; auto;
    intros H; apply andb_true_iff in H; apply H.
Qed.

Lemma strtol_digits_none tok : digit_free tok -> strtol_digits 16 tok 0 = 0.
Proof.
  unfold digit_free, hex_digit. destruct tok as [|c tok]; [reflexivity|].
  cbn [all_chars strtol_digits]. intros H. apply andb_true_iff in H. destruct H as [H _].
  destruct (digit_value c) as [dig|]; [|reflexivity].
  apply negb_true_iff, Z.ltb_ge in H.
  replace (dig >=? 16) with true by (symmetry; rewrite Z.geb_leb; apply Z.leb_le; lia).
  reflexivity.
Qed.

Lemma strtol_prefix_none tok : digit_free tok -> strtol_prefix 16 tok = tok.
Proof.
  unfold digit_free. destruct tok as [|c0 [|c1 tok]]; cbn [strtol_prefix]; try reflexivity.
  cbn [all_chars]. intros H. apply andb_true_iff in H. destruct H as [H _].
  destruct (Ascii.eqb c0 "0") eqn:Hc; [|rewrite andb_false_r; reflexivity].
  apply Ascii.eqb_eq in Hc. subst c0. discriminate.
Qed.

(** The [strtol] of the example machine meets the contract. *)
Lemma strtol_model_contract : strtol_contract strtol_model.
Proof.
  intros tok Hf. unfold strtol_model.
  pose proof (digit_free_sign _ (digit_free_blanks _ Hf)) as Hs.
  destruct (strtol_sign (strtol_blanks tok)) as [neg s1]. cbn [snd] in Hs.
  rewrite (strtol_prefix_none _ Hs), (strtol_digits_none _ Hs).
  destruct neg; reflexivity.
Qed.

(** C10.  [mon_showva2pa] takes whatever [strtol] returns for its tokens,
    numerals or not, and never looks at the end pointer: with one token or
    with two the run is the walk of the range between the values returned
    and nothing else, so that no line is printed but the report lines of the
    walk, and with fuel for one round the first round is on the lower value.
    A token for which [strtol] returns 0 makes the handler walk from address
    0: alone it gives one round on address 0 and the return of 0.  And a
    [strtol] that meets its contract returns 0 for a token without a digit
    of base 16. *)
Theorem showva2pa_unparsable_token :
  forall (Pmap : Type) (E : Env Pmap) (fuel : nat) (c a b : string) (s : Pmap),
    let A := wrap32 (strtol E a 16) in
    let B := wrap32 (strtol E b 16) in
    (mon_showva2pa E fuel [c; a] s = (showva2pa_loop E fuel A A ;; ret 0) s /\
     mon_showva2pa E fuel [c; a; b] s =
       (showva2pa_loop E fuel (Z.min A B) (Z.max A B) ;; ret 0) s) /\
    (Forall report_line (trace_of (mon_showva2pa E fuel [c; a] s)) /\
     Forall report_line (trace_of (mon_showva2pa E fuel [c; a; b] s))) /\
    ((1 <= fuel)%nat ->
     (exists vas, visits (A :: vas) (trace_of (mon_showva2pa E fuel [c; a] s))) /\
     (exists vas,
        visits (Z.min A B :: vas) (trace_of (mon_showva2pa E fuel [c; a; b] s)))) /\
    ((1 <= fuel)%nat -> strtol E a 16 = 0 ->
     (exists s' t, mon_showva2pa E fuel [c; a] s = Returned 0 s' t /\ visit 0 t) /\
     (exists vas, visits (0 :: vas) (trace_of (mon_showva2pa E fuel [c; a; b] s)))) /\
    (strtol_contract (strtol E) -> digit_free a -> strtol E a 16 = 0).
Proof.
  intros Pmap E fuel c a b s A B.
  pose proof (wrap32_range (strtol E a 16)) as Ha.
  pose proof (wrap32_range (strtol E b 16)) as Hb.
  fold A in Ha. fold B in Hb.
  assert (H1 : mon_showva2pa E fuel [c; a] s = (showva2pa_loop E fuel A A ;; ret 0) s)
    by (rewrite mon_showva2pa_single; reflexivity).
  assert (H2 : mon_showva2pa E fuel [c; a; b] s =
               (showva2pa_loop E fuel (Z.min A B) (Z.max A B) ;; ret 0) s)
    by (rewrite mon_showva2pa_pair; reflexivity).
  destruct (bind_ret_trace (showva2pa_loop E fuel A A) 0 s) as [Ht1 _].
  destruct (bind_ret_trace (showva2pa_loop E fuel (Z.min A B) (Z.max A B)) 0 s) as [Ht2 _].
  assert (Hfirst : (1 <= fuel)%nat ->
            (exists vas, visits (A :: vas) (trace_of (mon_showva2pa E fuel [c; a] s))) /\
            (exists vas,
               visits (Z.min A B :: vas) (trace_of (mon_showva2pa E fuel [c; a; b] s)))).
  { intros Hf. rewrite H1, H2, Ht1, Ht2. split.
    - apply showva2pa_loop_first; [lia | exact Hf].
    - apply showva2pa_loop_first; [lia | exact Hf]. }
  split; [split; assumption|]. split; [|split; [exact Hfirst|split]].
  - rewrite H1, H2, Ht1, Ht2. split.
    + destruct (showva2pa_loop_visits E A fuel A s) as (vas & Hv & _).
      eapply visits_report_lines. exact Hv.
    + destruct (showva2pa_loop_visits E (Z.max A B) fuel (Z.min A B) s) as (vas & Hv & _).
      eapply visits_report_lines. exact Hv.
  - intros Hf H0.
    assert (HA : A = 0) by (unfold A; rewrite H0; reflexivity).
    split.
    + rewrite H1, HA.
      destruct (showva2pa_loop_returns E 0 1 fuel 0 s) as (s' & t & Hl & Hv);
        try (unfold stride, sizeof_uintptr_t; lia).
      inversion Hv as [|va vas t1 t2 Hv1 Hv2]; subst.
      inversion Hv2; subst. rewrite app_nil_r in *.
      exists s', t1. split; [|assumption].
      eapply bind_ret_returned. exact Hl.
    + destruct (Hfirst Hf) as [_ (vas & Hv)]. exists vas.
      replace 0 with (Z.min A B) by lia. exact Hv.
  - intros Hc Hd. apply Hc. exact Hd.
Qed.

(** * C2, C3, C7: the backtrace *)


Section Backtrace.

Context {Pmap : Type} (E : Env Pmap).

Lemma backtrace_frame_run ebp s :
  backtrace_frame E ebp s = Returned tt s (frame_events E ebp).
Proof. reflexivity. Qed.

Lemma frames_of_app t1 t2 : frames_of (t1 ++ t2) = frames_of t1 ++ frames_of t2.
Proof. apply flat_map_app. Qed.

Lemma frames_of_frame_events ebp : frames_of (frame_events E ebp) = [read_frame E ebp].
Proof. reflexivity. Qed.

Lemma frames_of_rounds fps :
  frames_of (flat_map (frame_events E) fps) = map (read_frame E) fps.
Proof.
  induction fps as [|fp fps IH]; [reflexivity|].
  cbn [flat_map map]. rewrite frames_of_app, frames_of_frame_events, IH. reflexivity.
Qed.

Lemma chain_fps_length ebp n : List.length (chain_fps E ebp n) = n.
Proof. revert ebp. induction n; intros; simpl; auto. Qed.

(** On a chain of depth [D] the loop returns after [D] rounds. *)
Lemma backtrace_loop_chain D : forall fuel ebp s,
  chain E ebp D -> (D <= fuel)%nat ->
  backtrace_loop E fuel ebp s = Returned tt s (flat_map (frame_events E) (chain_fps E ebp D)).
Proof.
  induction D as [|d IH]; intros fuel ebp s Hc Hf.
  - simpl in Hc. subst ebp. destruct fuel; reflexivity.
  - destruct Hc as [Hne Hc]. destruct fuel as [|f]; [lia|].
    cbn [backtrace_loop]. apply Z.eqb_neq in Hne. rewrite Hne.
    cbn [chain_fps flat_map].
    eapply bind_returned; [apply backtrace_frame_run|].
    apply IH; [assumption | lia].
Qed.

(** As long as the chain has not reached zero the loop keeps going: it
    uses up any fuel, one round per unit. *)
Lemma backtrace_loop_unfinished fuel : forall ebp s,
  (forall D, (D <= fuel)%nat -> ~ chain E ebp D) ->
  backtrace_loop E fuel ebp s = Unfinished s (flat_map (frame_events E) (chain_fps E ebp fuel)).
Proof.
  induction fuel as [|f IH]; intros ebp s Hn.
  - assert (Hne : ebp <> 0) by (apply (Hn 0%nat); lia).
    apply Z.eqb_neq in Hne. cbn [backtrace_loop]. rewrite Hne. reflexivity.
  - assert (Hne : ebp <> 0) by (apply (Hn 0%nat); lia).
    cbn [backtrace_loop chain_fps flat_map].
    rewrite (proj2 (Z.eqb_neq _ _) Hne).
    unfold bind at 1. rewrite backtrace_frame_run.
    rewrite IH; [reflexivity|].
    intros D HD Hc. apply (Hn (S D)); [lia|]. split; assumption.
Qed.

Lemma mon_backtrace_unfinished fuel argv s t :
  backtrace_loop E fuel (wrap32 (read_ebp E)) s = Unfinished s t ->
  mon_backtrace E fuel argv s = Unfinished s t.
Proof. intros H. unfold mon_backtrace, bind. rewrite H. reflexivity. Qed.

End Backtrace.

(** C2 (the code at a frame).  With the frame at 0x7000 of the example
    stack, whose return address 0xf0100068 lies 40 bytes into a function
    that starts at 0xf0100040, the line printed after [file:line] carries
    the start address of the function where the offset 40 is expected. *)
Theorem backtrace_prints_function_start :
  nth 2 (trace_of (mon_backtrace (Demo.env Demo.stack 28672) 4 ["backtrace"] Demo.pages))
        (PageLookup 0) =
    Cprintf (ln ": %.*s+%d") [AInt 14; AStr "test_backtrace"; AInt 4027580480] /\
  returnAddress (read_frame (Demo.env Demo.stack 28672) 28672) = 4027580520 /\
  eip_fn_addr (debuginfo_eip (Demo.env Demo.stack 28672) 4027580520) = 4027580480 /\
  4027580520 - 4027580480 = 40.
Proof. vm_compute. repeat split; reflexivity. Qed.

(** C3 (as the code has it).  The walker has no cap on its rounds: it stops
    exactly when the chain of saved frame pointers reaches zero.  On a chain
    of depth [D] it returns after [D] rounds, given that many; and while the
    chain has not reached zero within [fuel] frames, it is still running
    after [fuel] rounds, whatever [fuel] is. *)
Theorem backtrace_stops_at_sentinel_only :
  forall (Pmap : Type) (E : Env Pmap) (fuel : nat) (argv : list string) (s : Pmap),
    (forall D, chain E (wrap32 (read_ebp E)) D -> (D <= fuel)%nat ->
       exists t, mon_backtrace E fuel argv s = Returned 0 s t /\
                 List.length (frames_of t) = D) /\
    ((forall D, (D <= fuel)%nat -> ~ chain E (wrap32 (read_ebp E)) D) ->
       exists t, mon_backtrace E fuel argv s = Unfinished s t /\
                 List.length (frames_of t) = fuel).
Proof.
  intros Pmap E fuel argv s. split.
  - intros D Hc Hf. eexists. split.
    + unfold mon_backtrace. eapply bind_ret_returned.
      apply backtrace_loop_chain; eassumption.
    + rewrite frames_of_rounds, length_map. apply chain_fps_length.
  - intros Hn. eexists. split.
    + apply mon_backtrace_unfinished. apply backtrace_loop_unfinished. exact Hn.
    + rewrite frames_of_rounds, length_map. apply chain_fps_length.
Qed.

(** C7.  When the chain of saved frame pointers that starts at the current
    frame pointer reaches the zero sentinel after [D] frames, the walker
    returns, and what it printed shows exactly these [D] frames: the current
    one first, each followed by the frame its saved frame pointer names. *)
Theorem backtrace_shows_chain :
  forall (Pmap : Type) (E : Env Pmap) (D fuel : nat) (argv : list string) (s : Pmap),
    chain E (wrap32 (read_ebp E)) D -> (D <= fuel)%nat ->
    exists t,
      mon_backtrace E fuel argv s = Returned 0 s t /\
      frames_of t = map (read_frame E) (chain_fps E (wrap32 (read_ebp E)) D) /\
      List.length (frames_of t) = D.
Proof.
  intros Pmap E D fuel argv s Hc Hf.
  exists (flat_map (frame_events E) (chain_fps E (wrap32 (read_ebp E)) D)).
  split; [|split].
  - unfold mon_backtrace. eapply bind_ret_returned.
    apply backtrace_loop_chain; assumption.
  - apply frames_of_rounds.
  - rewrite frames_of_rounds, length_map. apply chain_fps_length.
Qed.

(** * C8: the monitor loop *)


Section Monitor.

Context {Pmap : Type} (cmds : list (@Command Pmap)).


(** The lookup either calls a handler of the table whose name is the first
    word, or answers that the command is unknown. *)
Lemma lookup_cases (cs : list (@Command Pmap)) fuel argv s :
  (exists c, In c cs /\ name c = arg_at argv 0 /\
             lookup cs fuel argv s = func c fuel argv s) \/
  ((forall c, In c cs -> name c <> arg_at argv 0) /\
   lookup cs fuel argv s =
     Returned 0 s [Cprintf (ln "Unknown command '%s'") [AStr (arg_at argv 0)]]).
Proof.
  induction cs as [|c cs IH]; cbn [lookup].
  - right. split; [intros c []|reflexivity].
  - destruct (String.eqb (arg_at argv 0) (name c)) eqn:Heq.
    + apply String.eqb_eq in Heq. left. exists c. simpl. auto.
    + apply String.eqb_neq in Heq. destruct IH as [(c' & Hin & Hn & Hl)|[Hno Hl]].
      * left. exists c'. simpl. auto.
      * right. split; [|exact Hl]. intros c' [<-|Hin]; [congruence|auto].
Qed.

(** A value other than 0 can only come out of [runcmd] from a handler. *)
Lemma runcmd_nonzero fuel buf s r s' t :
  runcmd cmds fuel buf s = Returned r s' t -> r <> 0 ->
  exists argv c,
    parse_args buf = Some (Args argv) /\ In c cmds /\ name c = arg_at argv 0 /\
    func c fuel argv s = Returned r s' t.
Proof.
  unfold runcmd. destruct (parse_args buf) as [[argv|]|] eqn:Hp.
  - unfold dispatch. destruct (Z.of_nat (List.length argv) =? 0).
    + intros H. injection H as <- _ _. congruence.
    + destruct (lookup_cases cmds fuel argv s) as [(c & Hin & Hn & Hl)|[_ Hl]];
        rewrite Hl.
      * intros H _. exists argv, c. auto.
      * intros H. injection H as <- _ _. congruence.
  - intros H. injection H as <- _ _. congruence.
  - discriminate.
Qed.

Lemma runcmd_error_line fuel buf s :
  error_line cmds buf ->
  exists t, runcmd cmds fuel buf s = Returned 0 s t /\ queries t = [].
Proof.
  unfold runcmd. intros [Hp|[Hp|(argv & Hp & Hne & Hno)]]; rewrite Hp.
  - eexists. split; reflexivity.
  - eexists. split; reflexivity.
  - unfold dispatch. destruct argv as [|a argv]; [congruence|].
    cbn [List.length]. rewrite Nat2Z.inj_succ.
    replace (Z.succ (Z.of_nat (List.length argv)) =? 0) with false
      by (symmetry; apply Z.eqb_neq; lia).
    destruct (lookup_cases cmds fuel (a :: argv) s) as [(c & Hin & Hn & _)|[_ Hl]].
    + exfalso. exact (Hno c Hin Hn).
    + rewrite Hl. eexists. split; reflexivity.
Qed.

(** One turn of the loop on a line for which [runcmd] returns. *)
Lemma monitor_loop_turn fuel buf lines s r s1 t1 :
  runcmd cmds fuel buf s = Returned r s1 t1 ->
  monitor_loop cmds fuel (Some buf :: lines) s =
    if r <? 0 then Returned Terminated s1 t1
    else after t1 (monitor_loop cmds fuel lines s1).
Proof.
  intros Hr. cbn [monitor_loop]. unfold bind at 1. rewrite Hr.
  destruct (r <? 0).
  - unfold ret. rewrite app_nil_r. reflexivity.
  - unfold after. destruct (monitor_loop cmds fuel lines s1); reflexivity.
Qed.

Lemma monitor_loop_terminated fuel lines : forall s s' t,
  monitor_loop cmds fuel lines s = Returned Terminated s' t ->
  exists buf argv c r s1 s2 t1,
    In (Some buf) lines /\ parse_args buf = Some (Args argv) /\
    In c cmds /\ name c = arg_at argv 0 /\
    func c fuel argv s1 = Returned r s2 t1 /\ r < 0.
Proof.
  induction lines as [|[buf|] lines IH]; intros s s' t; cbn [monitor_loop].
  - discriminate.
  - unfold bind at 1. destruct (runcmd cmds fuel buf s) as [r s1 t1|s1 t1] eqn:Hr;
      [|discriminate].
    destruct (r <? 0) eqn:Hneg.
    + intros _. apply Z.ltb_lt in Hneg.
      destruct (runcmd_nonzero fuel buf s r s1 t1 Hr ltac:(lia))
        as (argv & c & Hp & Hin & Hn & Hf).
      exists buf, argv, c, r, s, s1, t1. simpl. auto 10.
    + destruct (monitor_loop cmds fuel lines s1) as [st s2 t2|s2 t2] eqn:Hl;
        [|discriminate].
      intros H. injection H as -> -> _.
      destruct (IH _ _ _ Hl) as (b & argv & c & r' & sa & sb & tb & Hin & H').
      exists b, argv, c, r', sa, sb, tb. split; [right; exact Hin | exact H'].
  - intros H. destruct (IH _ _ _ H) as (b & argv & c & r' & sa & sb & tb & Hin & H').
    exists b, argv, c, r', sa, sb, tb. split; [right; exact Hin | exact H'].
Qed.

Lemma monitor_after_welcome fuel lines s :
  monitor cmds fuel lines s =
    after [Cprintf (ln "Welcome to the JOS kernel monitor!") [];
           Cprintf (ln "Type 'help' for a list of commands.") []]
      (monitor_loop cmds fuel lines s).
Proof.
  unfold monitor, bind, cprintf, after.
  destruct (monitor_loop cmds fuel lines s); reflexivity.
Qed.

End Monitor.

(** [mon_help] prints the table it is itself part of. *)
Lemma commands_info {Pmap} (E : Env Pmap) :
  map (fun c => (name c, desc c)) (commands E) = command_info.
Proof. reflexivity. Qed.

(** Each handler of the monitor's own table returns 0 when it returns. *)
Lemma commands_return_zero {Pmap} (E : Env Pmap) c fuel argv s r s' t :
  In c (commands E) -> func c fuel argv s = Returned r s' t -> r = 0.
Proof.
  assert (Hb : forall (m : M Pmap unit) s r s' t,
             bind m (fun _ => ret 0) s = Returned r s' t -> r = 0).
  { intros m s0 r0 s0' t0. unfold bind, ret. destruct (m s0); [|discriminate].
    intros H. injection H as <- _ _. reflexivity. }
  intros [<-|[<-|[<-|[<-|[]]]]]; cbn [func].
  - apply Hb.
  - cbv [mon_kerninfo bind cprintf ret]. intros H. injection H as <- _ _. reflexivity.
  - apply Hb.
  - unfold mon_showva2pa.
    destruct (Z.of_nat (List.length argv) =? 1);
      [intros H; injection H as <- _ _; reflexivity|].
    destruct (Z.of_nat (List.length argv) >=? 4);
      [intros H; injection H as <- _ _; reflexivity|].
    match goal with |- context [let '(x, y) := ?p in _] => destruct p as [lo hi] end.
    apply Hb.
Qed.

(** C8.  The loop ends only when a handler that was called returns a
    negative value.  A null line from [readline] is passed over; on a line
    that [runcmd] answers itself (too many arguments, a blank line, an unknown
    command) [runcmd] returns 0 without touching the state and the loop goes
    on with the next line; and a run that has ended has a line whose first
    word names a command of the table, the handler of which returned a
    negative value.  With the monitor's own four commands no run ends. *)
Theorem monitor_leaves_on_terminate_only :
  forall (Pmap : Type) (cmds : list (@Command Pmap)) (fuel : nat)
         (lines : list (option string)) (s : Pmap),
    monitor cmds fuel (None :: lines) s = monitor cmds fuel lines s /\
    (forall buf, error_line cmds buf ->
       exists t, runcmd cmds fuel buf s = Returned 0 s t /\
                 monitor_loop cmds fuel (Some buf :: lines) s =
                   after t (monitor_loop cmds fuel lines s)) /\
    (forall s' t, monitor cmds fuel lines s = Returned Terminated s' t ->
       exists buf argv c r s1 s2 t1,
         In (Some buf) lines /\ parse_args buf = Some (Args argv) /\
         In c cmds /\ name c = arg_at argv 0 /\
         func c fuel argv s1 = Returned r s2 t1 /\ r < 0) /\
    (forall (E : Env Pmap) s' t,
       monitor (commands E) fuel lines s <> Returned Terminated s' t).
Proof.
  intros Pmap cmds fuel lines s.
  assert (Hend : forall cs s' t,
             monitor cs fuel lines s = Returned Terminated s' t ->
             exists t', monitor_loop cs fuel lines s = Returned Terminated s' t').
  { intros cs s' t. rewrite monitor_after_welcome.
    destruct (monitor_loop cs fuel lines s) as [st s2 t2|s2 t2]; [|discriminate].
    intros H. injection H as -> -> _. eexists. reflexivity. }
  split; [reflexivity|]. split; [|split].
  - intros buf He. destruct (runcmd_error_line cmds fuel buf s He) as (t & Hr & _).
    exists t. split; [exact Hr|].
    rewrite (monitor_loop_turn cmds fuel buf lines s 0 s t Hr). reflexivity.
  - intros s' t H. destruct (Hend cmds s' t H) as (t' & Hl).
    eapply monitor_loop_terminated. exact Hl.
  - intros E s' t H. destruct (Hend (commands E) s' t H) as (t' & Hl).
    destruct (monitor_loop_terminated (commands E) fuel lines s s' t' Hl)
      as (buf & argv & c & r & s1 & s2 & t1 & _ & _ & Hin & _ & Hf & Hneg).
    pose proof (commands_return_zero E c fuel argv s1 r s2 t1 Hin Hf). lia.
Qed.

(** * The theorems at work on the example machine *)

Lemma toy_read_only memory ebp : read_only (Demo.env memory ebp).
Proof.
  split; intros s va; cbn [pgdir_walk page_lookup Demo.env].
  - unfold Demo.toy_walk. destruct (Demo.find_pte s (va / 4096)); reflexivity.
  - unfold Demo.toy_lookup. destruct (Demo.find_pte s (va / 4096)) as [pte|];
      [destruct (Z.land pte 1 =? 1)|]; reflexivity.
Qed.

Lemma looped_chain_endless D : ~ chain Demo.Eloop 28672 D.
Proof.
  induction D as [|d IH]; cbn [chain]; [lia|].
  intros [_ H]. apply IH. exact H.
Qed.

(** The run of [showva2pa 1000 3000]: three rounds, at 0x1000, 0x2000 and
    0x3000. *)
Lemma showva2pa_walk_strides_witness :
  12288 + stride < 2 ^ 32 /\ (2 < 5)%nat /\
  (stride = 4096 /\
   exists s' t,
     mon_showva2pa Demo.E0 5 ["showva2pa"; "1000"; "3000"] Demo.pages = Returned 0 s' t /\
     walked t = strides stride 4096 3 /\
     reported t = walked t /\
     List.length (printed t) = List.length (walked t) /\
     (forall x, In x (walked t) <-> exists k, 0 <= k /\ x = 4096 + stride * k /\ x <= 12288) /\
     (In 12288 (walked t) <-> (12288 - 4096) mod stride = 0)).
Proof.
  split; [vm_compute; reflexivity|]. split; [lia|].
  apply (showva2pa_walk_strides _ Demo.E0 5 "showva2pa" "1000" "3000" Demo.pages);
    [vm_compute; reflexivity | vm_compute; lia].
Defined.

(** [showva2pa 1000 2000] walks 0x1000 and 0x2000 only, where steps of 1024
    bytes would also pass 0x1400, 0x1800 and 0x1c00; and [showva2pa 1000 1400]
    walks 0x1000 only and never reaches its upper end 0x1400. *)
Lemma showva2pa_steps_are_not_1024_bytes :
  walked (trace_of (mon_showva2pa Demo.E0 8 ["showva2pa"; "1000"; "2000"] Demo.pages))
    = [4096; 8192] /\
  spec_walk 4096 8192 = [4096; 5120; 6144; 7168; 8192] /\
  walked (trace_of (mon_showva2pa Demo.E0 8 ["showva2pa"; "1000"; "2000"] Demo.pages))
    <> spec_walk 4096 8192 /\
  mon_showva2pa Demo.E0 8 ["showva2pa"; "1000"; "1400"] Demo.pages =
    Returned 0 Demo.pages
      [PgdirWalk 4096 0; PageLookup 4096;
       Cprintf mapped_fmt [AInt 4096; AInt 20480; AInt 1; AInt 1; AInt 1]] /\
  ~ In 5120 (walked (trace_of
       (mon_showva2pa Demo.E0 8 ["showva2pa"; "1000"; "1400"] Demo.pages))).
Proof.
  vm_compute. repeat split; try reflexivity; try discriminate.
  intros [H|[]]. discriminate.
Qed.

Lemma showva2pa_order_independent_witness :
  8192 + stride < 2 ^ 32 /\ (1 < 5)%nat /\
  exists s' t,
    mon_showva2pa Demo.E0 5 ["showva2pa"; "2000"; "1000"] Demo.pages = Returned 0 s' t /\
    mon_showva2pa Demo.E0 5 ["showva2pa"; "1000"; "2000"] Demo.pages = Returned 0 s' t.
Proof.
  split; [vm_compute; reflexivity|]. split; [lia|].
  apply (proj2 (proj2 (showva2pa_order_independent _ Demo.E0 5 "showva2pa" "2000" "1000"
                         Demo.pages)));
    [vm_compute; reflexivity | vm_compute; lia].
Defined.

(** The text printed for a missing argument is not the text of the
    specification, and the text for too many starts with a capital. *)
Lemma showva2pa_messages_differ :
  mon_showva2pa Demo.E0 3 ["showva2pa"] Demo.pages =
    Returned 0 Demo.pages [Cprintf (ln "At least one argument.") []] /\
  String.index 0 "need at least one argument" (ln "At least one argument.") = None /\
  mon_showva2pa Demo.E0 3 ["showva2pa"; "1000"; "2000"; "3000"] Demo.pages =
    Returned 0 Demo.pages [Cprintf (ln "Too many arguments (max %d)") [AInt 2]] /\
  String.index 0 "too many arguments" (ln "Too many arguments (max %d)") = None.
Proof. vm_compute. repeat split; reflexivity. Qed.

Lemma mon_showva2pa_observes_only_witness :
  read_only Demo.E0 /\
  state_of (mon_showva2pa Demo.E0 8 ["showva2pa"; "0"; "3000"] Demo.pages) = Demo.pages.
Proof.
  split; [apply toy_read_only|].
  apply (proj2 (mon_showva2pa_observes_only _ Demo.E0 8 ["showva2pa"; "0"; "3000"]
                  Demo.pages)).
  apply toy_read_only.
Defined.

Lemma showva2pa_unparsable_token_witness :
  strtol_contract (strtol Demo.E0) /\ digit_free "-zz" /\ (1 <= 3)%nat /\
  strtol Demo.E0 "-zz" 16 = 0 /\
  (exists s' t,
     mon_showva2pa Demo.E0 3 ["showva2pa"; "-zz"] Demo.pages = Returned 0 s' t /\
     visit 0 t) /\
  (exists vas,
     visits (18 :: vas)
       (trace_of (mon_showva2pa Demo.E0 3 ["showva2pa"; "12zz"] Demo.pages))).
Proof.
  assert (Hc : strtol_contract (strtol Demo.E0)) by exact strtol_model_contract.
  assert (Hd : digit_free "-zz") by reflexivity.
  assert (Hf : (1 <= 3)%nat) by lia.
  destruct (showva2pa_unparsable_token _ Demo.E0 3 "showva2pa" "-zz" "-zz" Demo.pages)
    as (_ & _ & _ & Hzero & Hcontract).
  destruct (showva2pa_unparsable_token _ Demo.E0 3 "showva2pa" "12zz" "12zz" Demo.pages)
    as (_ & _ & Hfirst & _).
  split; [exact Hc|]. split; [exact Hd|]. split; [exact Hf|].
  split; [exact (Hcontract Hc Hd)|].
  split; [exact (proj1 (Hzero Hf (Hcontract Hc Hd)))|].
  exact (proj1 (Hfirst Hf)).
Defined.

Lemma backtrace_stops_at_sentinel_only_witness :
  chain Demo.E0 (wrap32 (read_ebp Demo.E0)) 2 /\ (2 <= 4)%nat /\
  exists t,
    mon_backtrace Demo.E0 4 ["backtrace"] Demo.pages = Returned 0 Demo.pages t /\
    List.length (frames_of t) = 2%nat.
Proof.
  assert (Hc : chain Demo.E0 (wrap32 (read_ebp Demo.E0)) 2).
  { vm_compute. repeat split; discriminate. }
  split; [exact Hc|]. split; [lia|].
  apply (proj1 (backtrace_stops_at_sentinel_only _ Demo.E0 4 ["backtrace"] Demo.pages) 2%nat);
    [exact Hc | lia].
Defined.

(** On the frame that points back at itself the walker never returns,
    whatever number of rounds it is given. *)
Lemma backtrace_cycle_never_returns :
  ~ exists (cap : nat) (r : Z) (s' : Demo.Pmap) (t : list event),
      mon_backtrace Demo.Eloop cap ["backtrace"] Demo.pages = Returned r s' t.
Proof.
  intros (cap & r & s' & t & H).
  rewrite (mon_backtrace_unfinished Demo.Eloop cap ["backtrace"] Demo.pages
             (flat_map (frame_events Demo.Eloop) (chain_fps Demo.Eloop 28672 cap))) in H.
  - discriminate.
  - apply (backtrace_loop_unfinished Demo.Eloop cap 28672 Demo.pages).
    intros D _. apply looped_chain_endless.
Qed.

Lemma backtrace_shows_chain_witness :
  chain Demo.E0 (wrap32 (read_ebp Demo.E0)) 2 /\ (2 <= 2)%nat /\
  exists t,
    mon_backtrace Demo.E0 2 [] Demo.pages = Returned 0 Demo.pages t /\
    frames_of t = map (read_frame Demo.E0) (chain_fps Demo.E0 (wrap32 (read_ebp Demo.E0)) 2) /\
    List.length (frames_of t) = 2%nat.
Proof.
  assert (Hc : chain Demo.E0 (wrap32 (read_ebp Demo.E0)) 2).
  { vm_compute. repeat split; discriminate. }
  split; [exact Hc|]. split; [lia|].
  apply (backtrace_shows_chain _ Demo.E0 2%nat 2%nat [] Demo.pages); [exact Hc | lia].
Defined.

Lemma monitor_leaves_on_terminate_only_witness :
  monitor Demo.table 3 [None; Some EmptyString; Some "quit"; Some "help"] Demo.pages =
    Returned Terminated Demo.pages
      [Cprintf (ln "Welcome to the JOS kernel monitor!") [];
       Cprintf (ln "Type 'help' for a list of commands.") []] /\
  exists buf argv c r s1 s2 t1,
    In (Some buf) [None; Some EmptyString; Some "quit"; Some "help"] /\
    parse_args buf = Some (Args argv) /\
    In c Demo.table /\ name c = arg_at argv 0 /\
    func c 3 argv s1 = Returned r s2 t1 /\ r < 0.
Proof.
  split; [reflexivity|].
  apply (proj1 (proj2 (proj2
           (monitor_leaves_on_terminate_only _ Demo.table 3
              [None; Some EmptyString; Some "quit"; Some "help"] Demo.pages)))
           Demo.pages
           [Cprintf (ln "Welcome to the JOS kernel monitor!") [];
            Cprintf (ln "Type 'help' for a list of commands.") []]).
  reflexivity.
Defined.

Lemma runcmd_splits_line_witness :
  blank " " /\ well_spaced Demo.two_words /\ well_spaced Demo.sixteen_words /\
  (List.length Demo.two_words <= 15)%nat /\ (16 <= List.length Demo.sixteen_words)%nat /\
  (parse_args (line " " Demo.two_words) = Some (Args ["help"; "me"]) /\
   List.length (map fst Demo.two_words) = 2%nat /\
   runcmd Demo.table 3 (line " " Demo.two_words) = dispatch Demo.table 3 ["help"; "me"]) /\
  (parse_args (line " " Demo.sixteen_words) = Some TooMany /\
   forall s : Demo.Pmap,
     runcmd Demo.table 3 (line " " Demo.sixteen_words) s =
       Returned 0 s [Cprintf (ln "Too many arguments (max %d)") [AInt 16]] /\
     monitor_loop Demo.table 3 [Some (line " " Demo.sixteen_words)] s =
       Returned Running s [Cprintf (ln "Too many arguments (max %d)") [AInt 16]]).
Proof.
  assert (Hb : blank " ") by reflexivity.
  assert (H2 : well_spaced Demo.two_words).
  { cbn. unfold word, blank. repeat split; try discriminate; reflexivity. }
  assert (H16 : well_spaced Demo.sixteen_words).
  { cbn. unfold word, blank. repeat split; try discriminate; reflexivity. }
  split; [exact Hb|]. split; [exact H2|]. split; [exact H16|].
  split; [cbn; lia|]. split; [cbn; lia|]. split.
  - apply (proj1 (runcmd_splits_line _ Demo.table 3 " " Demo.two_words Hb H2)).
    cbn; lia.
  - apply (proj2 (runcmd_splits_line _ Demo.table 3 " " Demo.sixteen_words Hb H16)).
    cbn; lia.
Defined.

(** * Further properties of the tokenizer, on any buffer *)

Lemma string_append_assoc a b c :
  String.append (String.append a b) c = String.append a (String.append b c).
Proof. induction a as [|x a IH]; simpl; [reflexivity|]. rewrite IH. reflexivity. Qed.

Lemma string_append_nil a : String.append a EmptyString = a.
Proof. induction a as [|x a IH]; simpl; [reflexivity|]. rewrite IH. reflexivity. Qed.

Lemma join_args_snoc argv a :
  join_args (argv ++ [a]) = String.append (join_args argv) a.
Proof.
  induction argv as [|b argv IH]; simpl.
  - apply string_append_nil.
  - rewrite IH, string_append_assoc. reflexivity.
Qed.

(** After the blanks the buffer is at its end or at the first character of a
    word. *)
Lemma gobble_stops buf :
  at_end (gobble buf) = false ->
  exists c s, gobble buf = String c s /\ word_char c = true.
Proof.
  induction buf as [|c buf IH]; cbn [gobble]; [discriminate|].
  destruct (negb (is_nul c) && strchr WHITESPACE c) eqn:Hc; [exact IH|].
  intros Hend. exists c, buf. split; [reflexivity|]. cbn [at_end] in Hend.
  unfold word_char. rewrite Hend in *. simpl in *. rewrite Hc. reflexivity.
Qed.

Lemma scan_arg_all_word buf : all_chars word_char (fst (scan_arg buf)) = true.
Proof.
  induction buf as [|c buf IH]; cbn [scan_arg]; [reflexivity|].
  destruct (negb (is_nul c) && negb (strchr WHITESPACE c)) eqn:Hc; [|reflexivity].
  destruct (scan_arg buf) as [a r]. cbn [fst all_chars] in *.
  unfold word_char at 1. rewrite Hc, IH. reflexivity.
Qed.

Lemma scan_arg_word_start c s :
  word_char c = true -> fst (scan_arg (String c s)) <> EmptyString.
Proof.
  intros Hc. cbn [scan_arg]. unfold word_char in Hc. rewrite Hc.
  destruct (scan_arg s). discriminate.
Qed.

Lemma non_blanks_gobble buf :
  non_blanks (c_chars (gobble buf)) = non_blanks (c_chars buf).
Proof.
  induction buf as [|c buf IH]; cbn [gobble]; [reflexivity|].
  destruct (negb (is_nul c) && strchr WHITESPACE c) eqn:Hc; [|reflexivity].
  apply andb_true_iff in Hc. destruct Hc as [Hn Hb]. apply negb_true_iff in Hn.
  rewrite IH. cbn [c_chars]. rewrite Hn. cbn [non_blanks].
  unfold blank_char. rewrite Hb. reflexivity.
Qed.

Lemma non_blanks_scan_arg buf :
  non_blanks (c_chars buf) =
    String.append (fst (scan_arg buf)) (non_blanks (c_chars (snd (scan_arg buf)))).
Proof.
  induction buf as [|c buf IH]; cbn [scan_arg]; [reflexivity|].
  destruct (negb (is_nul c) && negb (strchr WHITESPACE c)) eqn:Hc; [|reflexivity].
  apply andb_true_iff in Hc. destruct Hc as [Hn Hb].
  apply negb_true_iff in Hn, Hb.
  destruct (scan_arg buf) as [a r]. cbn [fst snd] in *.
  cbn [c_chars]. rewrite Hn. cbn [non_blanks]. unfold blank_char. rewrite Hb.
  rewrite IH. reflexivity.
Qed.

Lemma non_blanks_at_end buf : at_end buf = true -> non_blanks (c_chars buf) = EmptyString.
Proof.
  destruct buf as [|c buf]; [reflexivity|]. cbn [at_end c_chars].
  intros ->. reflexivity.
Qed.

Lemma parse_loop_words f : forall buf argv argv',
  Forall word argv ->
  parse_loop f buf argv = Some (Args argv') -> Forall word argv'.
Proof.
  induction f as [|f IH]; intros buf argv argv' Hw; cbn [parse_loop]; [discriminate|].
  destruct (at_end (gobble buf)) eqn:Hend; [intros H; injection H as <-; assumption|].
  destruct (Z.of_nat (List.length argv) =? MAXARGS - 1); [discriminate|].
  destruct (gobble_stops buf Hend) as (c & s & Hg & Hc). rewrite Hg.
  pose proof (scan_arg_all_word (String c s)) as Ha.
  pose proof (scan_arg_word_start c s Hc) as Hne.
  destruct (scan_arg (String c s)) as [a rest]. cbn [fst] in *.
  apply IH. apply Forall_app. split; [assumption|].
  constructor; [split; assumption | constructor].
Qed.

Lemma parse_loop_chars f : forall buf argv argv',
  parse_loop f buf argv = Some (Args argv') ->
  join_args argv' = String.append (join_args argv) (non_blanks (c_chars buf)).
Proof.
  induction f as [|f IH]; intros buf argv argv'; cbn [parse_loop]; [discriminate|].
  rewrite <- (non_blanks_gobble buf).
  destruct (at_end (gobble buf)) eqn:Hend.
  - intros H. injection H as <-.
    rewrite (non_blanks_at_end _ Hend), string_append_nil. reflexivity.
  - destruct (Z.of_nat (List.length argv) =? MAXARGS - 1); [discriminate|].
    rewrite (non_blanks_scan_arg (gobble buf)).
    destruct (scan_arg (gobble buf)) as [a rest]. cbn [fst snd].
    intros H. rewrite (IH _ _ _ H), join_args_snoc, string_append_assoc. reflexivity.
Qed.

(** X1.  On every buffer the argument loop of [runcmd] comes to an end, by
    its [break] or by the return for too many arguments, and it never hands
    more than fifteen arguments on. *)
Theorem parse_args_ends_within_bounds :
  forall buf : string,
    match parse_args buf with
    | Some (Args argv) => (List.length argv <= 15)%nat
    | Some TooMany => True
    | None => False
    end.
Proof.
  intros buf. pose proof (parse_args_total buf) as Ht.
  destruct (parse_args buf) as [[argv|]|] eqn:Hp; [|exact I|congruence].
  unfold parse_args in Hp. eapply (parse_loop_bound _ _ [] argv); [simpl; lia | exact Hp].
Qed.

(** X2.  Whatever the buffer holds, each argument that the loop saves is a
    word: it is not empty and has no blank and no NUL in it. *)
Theorem parse_args_gives_words :
  forall (buf : string) (argv : list string),
    parse_args buf = Some (Args argv) -> Forall word argv.
Proof.
  intros buf argv Hp. unfold parse_args in Hp.
  apply (parse_loop_words _ _ _ _ (Forall_nil word) Hp).
Qed.

(** X3.  The arguments are cut out of the buffer without losing or changing
    a character: written one after the other they are the characters of the
    buffer before its NUL, the blanks left out. *)
Theorem parse_args_keeps_characters :
  forall (buf : string) (argv : list string),
    parse_args buf = Some (Args argv) ->
    join_args argv = non_blanks (c_chars buf).
Proof.
  intros buf argv Hp. unfold parse_args in Hp.
  apply (parse_loop_chars _ _ _ _ Hp).
Qed.

(** * Further properties of [runcmd] *)

Lemma blank_buffer_at_end buf :
  all_chars blank_char (c_chars buf) = true -> at_end (gobble buf) = true.
Proof.
  induction buf as [|c buf IH]; [reflexivity|].
  cbn [c_chars gobble]. destruct (is_nul c) eqn:Hn.
  - intros _. cbn [negb andb at_end]. exact Hn.
  - cbn [all_chars negb andb]. intros H. apply andb_true_iff in H.
    destruct H as [Hb H]. unfold blank_char in Hb. rewrite Hb. auto.
Qed.

Lemma parse_args_line lead toks :
  blank lead -> well_spaced toks -> (List.length toks <= 15)%nat ->
  parse_args (line lead toks) = Some (Args (map fst toks)).
Proof.
  intros Hl Hw Hn. pose proof (line_length toks lead Hw) as Hlen.
  unfold parse_args. rewrite parse_loop_fits; auto. simpl. lia.
Qed.

Lemma lookup_first_match {Pmap} (pre : list (@Command Pmap)) c post fuel argv :
  (forall c', In c' pre -> name c' <> arg_at argv 0) ->
  name c = arg_at argv 0 ->
  lookup (pre ++ c :: post) fuel argv = func c fuel argv.
Proof.
  intros Hpre Hc. induction pre as [|c' pre IH]; cbn [app lookup].
  - rewrite Hc, String.eqb_refl. reflexivity.
  - replace (String.eqb (arg_at argv 0) (name c')) with false.
    + apply IH. intros c'' Hin. apply Hpre. right. exact Hin.
    + symmetry. apply String.eqb_neq. intros Heq. apply (Hpre c'); [left; reflexivity|].
      symmetry. exact Heq.
Qed.

(** X4.  On a buffer that holds nothing but blanks before its NUL, [runcmd]
    returns 0 at once: nothing is printed, no command is looked up, the
    state is as it was. *)
Theorem runcmd_blank_line :
  forall (Pmap : Type) (cmds : list (@Command Pmap)) (fuel : nat) (buf : string) (s : Pmap),
    all_chars blank_char (c_chars buf) = true ->
    parse_args buf = Some (Args []) /\
    runcmd cmds fuel buf s = Returned 0 s [].
Proof.
  intros Pmap cmds fuel buf s Hb.
  assert (Hp : parse_args buf = Some (Args [])).
  { unfold parse_args. cbn [parse_loop]. rewrite (blank_buffer_at_end buf Hb). reflexivity. }
  split; [exact Hp|]. unfold runcmd. rewrite Hp. reflexivity.
Qed.

(** X5.  A line of at most fifteen words whose first word is the name of no
    command of the table makes [runcmd] print "Unknown command" with that
    word and return 0, the state as it was; the words after it play no
    part. *)
Theorem runcmd_unknown_command :
  forall (Pmap : Type) (cmds : list (@Command Pmap)) (fuel : nat)
         (lead t sep : string) (rest : list (string * string)) (s : Pmap),
    blank lead -> well_spaced ((t, sep) :: rest) -> (List.length rest < 15)%nat ->
    (forall c, In c cmds -> name c <> t) ->
    runcmd cmds fuel (line lead ((t, sep) :: rest)) s =
      Returned 0 s [Cprintf (ln "Unknown command '%s'") [AStr t]].
Proof.
  intros Pmap cmds fuel lead t sep rest s Hl Hw Hn Hno.
  unfold runcmd. rewrite (parse_args_line lead _ Hl Hw) by (simpl; lia).
  cbn [map fst]. unfold dispatch. cbn [List.length]. rewrite Nat2Z.inj_succ.
  replace (Z.succ (Z.of_nat (List.length (map fst rest))) =? 0) with false
    by (symmetry; apply Z.eqb_neq; lia).
  destruct (lookup_cases cmds fuel (t :: map fst rest) s) as [(c & Hin & Hc & _)|[_ Hr]].
  - exfalso. exact (Hno c Hin Hc).
  - exact Hr.
Qed.

(** X6.  The lookup is by exact name and the first entry wins: on a line of
    at most fifteen words whose first word is the name of the command [c],
    no entry before [c] in the table having this name, [runcmd] is the call
    of the handler of [c] on all the words of the line, the name included. *)
Theorem runcmd_calls_named_handler :
  forall (Pmap : Type) (pre : list (@Command Pmap)) (c : @Command Pmap)
         (post : list (@Command Pmap)) (fuel : nat)
         (lead sep : string) (rest : list (string * string)),
    blank lead -> well_spaced ((name c, sep) :: rest) -> (List.length rest < 15)%nat ->
    (forall c', In c' pre -> name c' <> name c) ->
    runcmd (pre ++ c :: post) fuel (line lead ((name c, sep) :: rest)) =
      func c fuel (name c :: map fst rest).
Proof.
  intros Pmap pre c post fuel lead sep rest Hl Hw Hn Hpre.
  unfold runcmd. rewrite (parse_args_line lead _ Hl Hw) by (simpl; lia).
  cbn [map fst]. unfold dispatch. cbn [List.length]. rewrite Nat2Z.inj_succ.
  replace (Z.succ (Z.of_nat (List.length (map fst rest))) =? 0) with false
    by (symmetry; apply Z.eqb_neq; lia).
  apply lookup_first_match; [exact Hpre | reflexivity].
Qed.

(** X7.  A line that starts with the word [help] prints one line for each
    command of the table, in the order of the table, with its name and its
    description, whatever follows the word; it returns 0 and leaves the state
    as it was. *)
Theorem runcmd_help_lists_commands :
  forall (Pmap : Type) (E : Env Pmap) (fuel : nat)
         (lead sep : string) (rest : list (string * string)) (s : Pmap),
    blank lead -> well_spaced (("help", sep) :: rest) -> (List.length rest < 15)%nat ->
    runcmd (commands E) fuel (line lead (("help", sep) :: rest)) s =
      Returned 0 s (map help_line (commands E)).
Proof.
  intros Pmap E fuel lead sep rest s Hl Hw Hn.
  unfold runcmd. rewrite (parse_args_line lead _ Hl Hw) by (simpl; lia).
  cbn [map fst]. unfold dispatch. cbn [List.length]. rewrite Nat2Z.inj_succ.
  replace (Z.succ (Z.of_nat (List.length (map fst rest))) =? 0) with false
    by (symmetry; apply Z.eqb_neq; lia).
  reflexivity.
Qed.

(** * Further properties of the handlers and of the monitor loop *)

Lemma queries_app t1 t2 : queries (t1 ++ t2) = queries t1 ++ queries t2.
Proof. apply filter_app. Qed.

Lemma no_queries_no_create t : queries t = [] -> Forall no_create t.
Proof.
  induction t as [|e t IH]; [constructor|].
  destruct e; cbn; try discriminate. intros H. constructor; [exact I | auto].
Qed.

Lemma trace_of_after {Pmap A} t0 (o : outcome Pmap A) :
  trace_of (after t0 o) = t0 ++ trace_of o.
Proof. destruct o; reflexivity. Qed.

Lemma state_of_after {Pmap A} t0 (o : outcome Pmap A) :
  state_of (after t0 o) = state_of o.
Proof. destruct o; reflexivity. Qed.

Lemma after_nil {Pmap A} (o : outcome Pmap A) : after [] o = o.
Proof. destruct o; reflexivity. Qed.

Lemma after_app {Pmap A} t1 t2 (o : outcome Pmap A) :
  after (t1 ++ t2) o = after t1 (after t2 o).
Proof. destruct o; simpl; rewrite app_assoc; reflexivity. Qed.

Section Quiet.

Context {Pmap : Type} (E : Env Pmap).

Lemma backtrace_loop_quiet fuel : forall ebp s,
  state_of (backtrace_loop E fuel ebp s) = s /\
  queries (trace_of (backtrace_loop E fuel ebp s)) = [].
Proof.
  induction fuel as [|f IH]; intros ebp s; cbn [backtrace_loop].
  - destruct (ebp =? 0); split; reflexivity.
  - destruct (ebp =? 0); [split; reflexivity|].
    rewrite state_of_bind, trace_of_bind, backtrace_frame_run.
    destruct (IH (load E ebp 0) s) as [Hs Hq].
    split; [exact Hs|]. rewrite queries_app, Hq. reflexivity.
Qed.

Lemma mon_backtrace_quiet fuel argv s :
  state_of (mon_backtrace E fuel argv s) = s /\
  queries (trace_of (mon_backtrace E fuel argv s)) = [].
Proof.
  unfold mon_backtrace.
  destruct (bind_ret_trace (backtrace_loop E fuel (wrap32 (read_ebp E))) 0 s) as [Ht Hs].
  rewrite Ht, Hs. apply backtrace_loop_quiet.
Qed.

Lemma mon_kerninfo_quiet argv s :
  state_of (mon_kerninfo E argv s) = s /\ queries (trace_of (mon_kerninfo E argv s)) = [].
Proof. cbv [mon_kerninfo bind cprintf ret state_of trace_of]. split; reflexivity. Qed.

Lemma mon_help_quiet argv s :
  state_of (@mon_help Pmap argv s) = s /\ queries (trace_of (@mon_help Pmap argv s)) = [].
Proof. split; reflexivity. Qed.

Lemma mon_showva2pa_quiet fuel argv s :
  Forall no_create (trace_of (mon_showva2pa E fuel argv s)) /\
  (read_only E -> state_of (mon_showva2pa E fuel argv s) = s).
Proof.
  unfold mon_showva2pa.
  destruct (Z.of_nat (List.length argv) =? 1).
  { split; [repeat constructor | reflexivity]. }
  destruct (Z.of_nat (List.length argv) >=? 4).
  { split; [repeat constructor | reflexivity]. }
  match goal with |- context [let '(x, y) := ?p in _] => destruct p as [lo hi] end.
  destruct (bind_ret_trace (showva2pa_loop E fuel lo hi) 0 s) as [Ht Hs].
  rewrite Ht, Hs.
  destruct (showva2pa_loop_visits E hi fuel lo s) as (vas & Hv & Hst).
  split; [eapply visits_no_create; eassumption | exact Hst].
Qed.

(** Every handler of the table only looks. *)
Lemma commands_quiet c fuel argv s :
  In c (commands E) ->
  Forall no_create (trace_of (func c fuel argv s)) /\
  (read_only E -> state_of (func c fuel argv s) = s).
Proof.
  intros [<-|[<-|[<-|[<-|[]]]]]; cbn [func].
  - destruct (mon_help_quiet argv s) as [Hs Hq].
    split; [apply no_queries_no_create; exact Hq | intros _; exact Hs].
  - destruct (mon_kerninfo_quiet argv s) as [Hs Hq].
    split; [apply no_queries_no_create; exact Hq | intros _; exact Hs].
  - destruct (mon_backtrace_quiet fuel argv s) as [Hs Hq].
    split; [apply no_queries_no_create; exact Hq | intros _; exact Hs].
  - apply mon_showva2pa_quiet.
Qed.

Lemma runcmd_quiet fuel buf s :
  Forall no_create (trace_of (runcmd (commands E) fuel buf s)) /\
  (read_only E -> state_of (runcmd (commands E) fuel buf s) = s).
Proof.
  unfold runcmd. destruct (parse_args buf) as [[argv|]|].
  - unfold dispatch. destruct (Z.of_nat (List.length argv) =? 0).
    + split; [constructor | reflexivity].
    + destruct (lookup_cases (commands E) fuel argv s) as [(c & Hin & _ & Hl)|[_ Hl]];
        rewrite Hl.
      * apply commands_quiet. exact Hin.
      * split; [repeat constructor | reflexivity].
  - split; [repeat constructor | reflexivity].
  - split; [constructor | reflexivity].
Qed.

Lemma monitor_loop_quiet fuel lines : forall s,
  Forall no_create (trace_of (monitor_loop (commands E) fuel lines s)) /\
  (read_only E -> state_of (monitor_loop (commands E) fuel lines s) = s).
Proof.
  induction lines as [|[buf|] lines IH]; intros s; cbn [monitor_loop].
  - split; [constructor | reflexivity].
  - rewrite trace_of_bind, state_of_bind.
    destruct (runcmd_quiet fuel buf s) as [Ht Hs].
    destruct (runcmd (commands E) fuel buf s) as [r s1 t1|s1 t1]; cbn [trace_of state_of] in *.
    + destruct (r <? 0).
      * split; [rewrite app_nil_r; exact Ht | exact Hs].
      * destruct (IH s1) as [Ht' Hs']. split.
        -- apply Forall_app. split; assumption.
        -- intros H. rewrite (Hs' H). exact (Hs H).
    + split; assumption.
  - apply IH.
Qed.

End Quiet.

(** X8.  [mon_help], [mon_kerninfo] and [mon_backtrace] never call into the
    page-table code and leave its state as it was, whatever their arguments;
    for [mon_backtrace] this holds after any number of rounds, finished or
    not. *)
Theorem other_handlers_leave_page_tables_alone :
  forall (Pmap : Type) (E : Env Pmap) (fuel : nat) (argv : list string) (s : Pmap),
    (state_of (@mon_help Pmap argv s) = s /\
     queries (trace_of (@mon_help Pmap argv s)) = []) /\
    (state_of (mon_kerninfo E argv s) = s /\
     queries (trace_of (mon_kerninfo E argv s)) = []) /\
    (state_of (mon_backtrace E fuel argv s) = s /\
     queries (trace_of (mon_backtrace E fuel argv s)) = []).
Proof.
  intros Pmap E fuel argv s. split; [|split].
  - apply mon_help_quiet.
  - apply mon_kerninfo_quiet.
  - apply mon_backtrace_quiet.
Qed.

(** X9.  No sequence of input lines makes the monitor change the page
    tables: in a whole session with the monitor's own commands every
    [pgdir_walk] is asked with the create flag 0, and when the page-table
    code leaves the state alone on such calls the state at any point of the
    session is the state the monitor was entered with. *)
Theorem monitor_session_observes_only :
  forall (Pmap : Type) (E : Env Pmap) (fuel : nat) (lines : list (option string)) (s : Pmap),
    Forall no_create (trace_of (monitor (commands E) fuel lines s)) /\
    (read_only E -> state_of (monitor (commands E) fuel lines s) = s).
Proof.
  intros Pmap E fuel lines s. rewrite monitor_after_welcome.
  rewrite trace_of_after, state_of_after.
  destruct (monitor_loop_quiet E fuel lines s) as [Ht Hs].
  split; [|exact Hs]. repeat constructor. exact Ht.
Qed.

(** X10.  The loop takes the lines one after the other: a run over the lines
    [l1] followed by [l2] is the run over [l1] and, when that has left the
    loop running, the run over [l2] from the state it reached, its output
    after the output of the first; a run over [l1] that has terminated or is
    held up in a handler is the whole run. *)
Theorem monitor_loop_app :
  forall (Pmap : Type) (cmds : list (@Command Pmap)) (fuel : nat)
         (l1 l2 : list (option string)) (s : Pmap),
    monitor_loop cmds fuel (l1 ++ l2) s =
      match monitor_loop cmds fuel l1 s with
      | Returned Running s1 t1 => after t1 (monitor_loop cmds fuel l2 s1)
      | o => o
      end.
Proof.
  intros Pmap cmds fuel l1 l2. induction l1 as [|[buf|] l1 IH]; intros s.
  - cbn [app monitor_loop]. unfold ret. rewrite after_nil. reflexivity.
  - cbn [app monitor_loop]. unfold bind.
    destruct (runcmd cmds fuel buf s) as [r s1 t1|s1 t1]; [|reflexivity].
    destruct (r <? 0); [reflexivity|].
    rewrite IH.
    destruct (monitor_loop cmds fuel l1 s1) as [[|] s2 t2|s2 t2]; try reflexivity.
    rewrite after_app. destruct (monitor_loop cmds fuel l2 s2); reflexivity.
  - cbn [app monitor_loop]. apply IH.
Qed.

(** * Further properties of the range walk and of the backtrace *)

Section WalkEnds.

Context {Pmap : Type} (E : Env Pmap).

(** The loop returns when the first address above [hi] is still an address. *)
Lemma showva2pa_loop_returns_below hi count : forall fuel lo s,
  0 <= lo -> lo + stride * Z.of_nat count < 2 ^ 32 ->
  lo + stride * (Z.of_nat count - 1) <= hi < lo + stride * Z.of_nat count ->
  (count <= fuel)%nat ->
  exists s' t,
    showva2pa_loop E fuel lo hi s = Returned tt s' t /\
    visits (strides stride lo count) t.
Proof.
  unfold stride, sizeof_uintptr_t.
  induction count as [|c IH]; intros fuel lo s Hlo Htop Hc Hf.
  - exists s, []. split; [|constructor].
    replace (showva2pa_loop E fuel lo hi) with (@ret Pmap unit tt); [reflexivity|].
    destruct fuel; cbn [showva2pa_loop];
      replace (lo <=? hi) with false by (symmetry; apply Z.leb_gt; lia); reflexivity.
  - destruct fuel as [|f]; [lia|]. cbn [showva2pa_loop].
    replace (lo <=? hi) with true by (symmetry; apply Z.leb_le; lia).
    destruct (showva2pa_body_visit E lo s) as (s1 & t1 & Hb & Hv & _).
    assert (Hnext : ptr_add sizeof_uintptr_t lo 1024 = lo + 1024 * 4).
    { unfold ptr_add, sizeof_uintptr_t, wrap32. rewrite Z.mod_small; lia. }
    rewrite Hnext.
    destruct (IH f (lo + 1024 * 4) s1) as (s2 & t2 & Hl & Hvs); try lia.
    exists s2, (t1 ++ t2). split.
    + eapply bind_returned; eassumption.
    + cbn [strides]. constructor; assumption.
Qed.

(** When every address with the remainder [r] is at most [hi], the loop
    started at such an address goes round the address space for ever. *)
Lemma showva2pa_loop_wraps hi r fuel : forall va s,
  2 ^ 32 - stride + r <= hi ->
  0 <= va < 2 ^ 32 -> va mod stride = r ->
  exists s' t, showva2pa_loop E fuel va hi s = Unfinished s' t.
Proof.
  unfold stride, sizeof_uintptr_t. change (1024 * 4) with 4096.
  induction fuel as [|f IH]; intros va s Hhi Hva Hal.
  - assert (Hle : va <= hi).
    { pose proof (Z.div_mod va 4096 ltac:(lia)).
      pose proof (Z.mod_pos_bound va 4096 ltac:(lia)). lia. }
    cbn [showva2pa_loop]. rewrite (proj2 (Z.leb_le _ _) Hle).
    eexists _, _. reflexivity.
  - assert (Hle : va <= hi).
    { pose proof (Z.div_mod va 4096 ltac:(lia)).
      pose proof (Z.mod_pos_bound va 4096 ltac:(lia)). lia. }
    cbn [showva2pa_loop]. rewrite (proj2 (Z.leb_le _ _) Hle).
    destruct (showva2pa_body_visit E va s) as (s1 & t1 & Hb & _ & _).
    assert (Hnext : 0 <= ptr_add sizeof_uintptr_t va 1024 < 2 ^ 32 /\
                    ptr_add sizeof_uintptr_t va 1024 mod 4096 = r).
    { unfold ptr_add, sizeof_uintptr_t. split; [apply wrap32_range|]. unfold wrap32.
      destruct (Z_lt_dec (va + 1024 * 4) (2 ^ 32)) as [Hlt|Hge].
      - rewrite (Z.mod_small (va + 1024 * 4) (2 ^ 32)) by lia.
        replace (va + 1024 * 4) with (va + 1 * 4096) by lia.
        rewrite Z_mod_plus_full. exact Hal.
      - replace (va + 1024 * 4) with ((va + 4096 - 2 ^ 32) + 1 * 2 ^ 32) by lia.
        rewrite Z_mod_plus_full.
        rewrite (Z.mod_small (va + 4096 - 2 ^ 32) (2 ^ 32)) by lia.
        replace (va + 4096 - 2 ^ 32) with (va + (1 - 2 ^ 20) * 4096) by lia.
        rewrite Z_mod_plus_full. exact Hal. }
    destruct Hnext as [Hr Ha].
    destruct (IH (ptr_add sizeof_uintptr_t va 1024) s1 Hhi Hr Ha) as (s2 & t2 & Hl).
    exists s2, (t1 ++ t2). unfold bind. rewrite Hb, Hl. reflexivity.
Qed.

(** After any number of rounds the backtrace has gone along the chain, it
    has met no null frame pointer on the way, and it has returned only at
    the zero that ends the chain. *)
Lemma backtrace_loop_rounds fuel : forall ebp s,
  exists k,
    (k <= fuel)%nat /\
    trace_of (backtrace_loop E fuel ebp s) = flat_map (frame_events E) (chain_fps E ebp k) /\
    Forall (fun fp => fp <> 0) (chain_fps E ebp k) /\
    (forall u s' t, backtrace_loop E fuel ebp s = Returned u s' t -> chain E ebp k).
Proof.
  induction fuel as [|f IH]; intros ebp s; cbn [backtrace_loop].
  - exists 0%nat. destruct (ebp =? 0) eqn:Hz.
    + apply Z.eqb_eq in Hz. repeat split; try constructor. intros; exact Hz.
    + repeat split; try constructor. discriminate.
  - destruct (ebp =? 0) eqn:Hz.
    + apply Z.eqb_eq in Hz. exists 0%nat.
      repeat split; [lia | constructor | intros; exact Hz].
    + apply Z.eqb_neq in Hz.
      destruct (IH (load E ebp 0) s) as (k & Hk & Ht & Hnz & Hret).
      exists (S k). rewrite trace_of_bind, backtrace_frame_run, Ht.
      cbn [chain_fps flat_map chain]. repeat split; [lia | | exact Hz |].
      * constructor; assumption.
      * unfold bind in H. rewrite backtrace_frame_run in H.
        destruct (backtrace_loop E f (load E ebp 0) s) as [u1 s1 t1|s1 t1] eqn:Hl;
          [|discriminate].
        eapply Hret. reflexivity.
Qed.

End WalkEnds.

(** X11.  One address token stands for the range from that address to
    itself: [showva2pa A] runs as [showva2pa A A] does, and for an address
    below the last page it is one round, with one walk of the address and one
    report line, after which the handler returns 0. *)
Theorem showva2pa_single_address :
  forall (Pmap : Type) (E : Env Pmap) (fuel : nat) (c a : string) (s : Pmap),
    mon_showva2pa E fuel [c; a] s = mon_showva2pa E fuel [c; a; a] s /\
    (wrap32 (strtol E a 16) + stride < 2 ^ 32 -> (1 <= fuel)%nat ->
     exists s' t,
       mon_showva2pa E fuel [c; a] s = Returned 0 s' t /\
       visit (wrap32 (strtol E a 16)) t).
Proof.
  intros Pmap E fuel c a s. split.
  - rewrite mon_showva2pa_single, mon_showva2pa_pair, Z.min_id, Z.max_id. reflexivity.
  - intros Hhi Hf. rewrite mon_showva2pa_single.
    pose proof (wrap32_range (strtol E a 16)) as Ha.
    destruct (showva2pa_loop_returns E (wrap32 (strtol E a 16)) 1 fuel
                (wrap32 (strtol E a 16)) s) as (s' & t & Hl & Hv);
      try (unfold stride, sizeof_uintptr_t in *; lia).
    inversion Hv as [|va vas t1 t2 H1 H2]; subst.
    inversion H2; subst. rewrite app_nil_r in *.
    exists s', t1. split; [|assumption].
    eapply bind_ret_returned. exact Hl.
Qed.

(** X12.  When the range walk comes back and when it does not.  With [lo]
    and [hi] the smaller and the larger of two addresses and [n] the number
    of whole steps of 4096 bytes between them: if the address one step past
    the last one visited, [lo + 4096 * (n + 1)], is still below [2^32], the
    handler returns 0 after [n + 1] rounds; if not, the address wraps round
    to the bottom of the address space, where it is below [hi] again, and
    the handler never returns, however long it runs. *)
Theorem showva2pa_returns_unless_it_wraps :
  forall (Pmap : Type) (E : Env Pmap) (fuel : nat) (c a b : string) (s : Pmap),
    let lo := Z.min (wrap32 (strtol E a 16)) (wrap32 (strtol E b 16)) in
    let hi := Z.max (wrap32 (strtol E a 16)) (wrap32 (strtol E b 16)) in
    let n := Z.to_nat ((hi - lo) / stride) in
    (lo + stride * (Z.of_nat n + 1) < 2 ^ 32 -> (n < fuel)%nat ->
     exists s' t,
       mon_showva2pa E fuel [c; a; b] s = Returned 0 s' t /\
       walked t = strides stride lo (S n)) /\
    (2 ^ 32 <= lo + stride * (Z.of_nat n + 1) ->
     exists s' t, mon_showva2pa E fuel [c; a; b] s = Unfinished s' t).
Proof.
  intros Pmap E fuel c a b s lo hi n.
  pose proof (wrap32_range (strtol E a 16)) as Ha.
  pose proof (wrap32_range (strtol E b 16)) as Hb.
  assert (Hlo : 0 <= lo <= hi /\ hi < 2 ^ 32) by (unfold lo, hi; lia).
  assert (Hs : stride = 4096) by reflexivity.
  assert (Hn : Z.of_nat n = (hi - lo) / stride).
  { unfold n. rewrite Z2Nat.id; [reflexivity|]. apply Z.div_pos; lia. }
  pose proof (Z.div_mod (hi - lo) stride ltac:(lia)) as Hdm.
  pose proof (Z.mod_pos_bound (hi - lo) stride ltac:(lia)) as Hm.
  rewrite mon_showva2pa_pair. fold lo hi. split.
  - intros Htop Hf.
    destruct (showva2pa_loop_returns_below E hi (S n) fuel lo s) as (s' & t & Hl & Hv);
      try (rewrite ?Nat2Z.inj_succ; lia).
    exists s', t. split; [eapply bind_ret_returned; exact Hl|].
    apply visits_walked. exact Hv.
  - intros Htop.
    pose proof (Z.div_mod lo stride ltac:(lia)) as Hdl.
    pose proof (Z.mod_pos_bound lo stride ltac:(lia)) as Hml.
    assert (Hall : 2 ^ 32 - stride + lo mod stride <= hi) by lia.
    assert (Hin : 0 <= lo < 2 ^ 32) by lia.
    destruct (showva2pa_loop_wraps E hi (lo mod stride) fuel lo s Hall Hin eq_refl)
      as (s' & t & Hl).
    exists s', t. unfold bind. rewrite Hl. reflexivity.
Qed.

(** X13.  Whatever memory holds and whether it has returned or not, a
    backtrace that has done some rounds of its loop has shown, frame line by
    frame line, the frames of the first frame pointers of the chain of saved
    frame pointers, in the order of the chain; none of them is the frame of
    a null frame pointer; and when it has returned, the chain has reached
    its zero right after the frames shown. *)
Theorem backtrace_shows_chain_prefix :
  forall (Pmap : Type) (E : Env Pmap) (fuel : nat) (argv : list string) (s : Pmap),
    exists k,
      (k <= fuel)%nat /\
      frames_of (trace_of (mon_backtrace E fuel argv s)) =
        map (read_frame E) (chain_fps E (wrap32 (read_ebp E)) k) /\
      Forall (fun fp => fp <> 0) (chain_fps E (wrap32 (read_ebp E)) k) /\
      (forall r s' t,
         mon_backtrace E fuel argv s = Returned r s' t ->
         chain E (wrap32 (read_ebp E)) k).
Proof.
  intros Pmap E fuel argv s. unfold mon_backtrace.
  destruct (bind_ret_trace (backtrace_loop E fuel (wrap32 (read_ebp E))) 0 s) as [Ht _].
  destruct (backtrace_loop_rounds E fuel (wrap32 (read_ebp E)) s)
    as (k & Hk & Htr & Hnz & Hret).
  exists k. rewrite Ht, Htr. repeat split; try assumption.
  - apply frames_of_rounds.
  - intros r s' t H. unfold bind in H.
    destruct (backtrace_loop E fuel (wrap32 (read_ebp E)) s) as [u1 s1 t1|s1 t1] eqn:Hl;
      [|discriminate].
    eapply Hret. reflexivity.
Qed.

(** * The further properties at work on the example machine *)

Lemma parse_args_gives_words_witness :
  parse_args "  help  me " = Some (Args ["help"; "me"]) /\ Forall word ["help"; "me"].
Proof.
  split; [reflexivity|].
  apply (parse_args_gives_words "  help  me " ["help"; "me"]). reflexivity.
Defined.

Lemma parse_args_keeps_characters_witness :
  parse_args " ab  c d " = Some (Args ["ab"; "c"; "d"]) /\
  join_args ["ab"; "c"; "d"] = non_blanks (c_chars " ab  c d ").
Proof.
  split; [reflexivity|].
  apply (parse_args_keeps_characters " ab  c d " ["ab"; "c"; "d"]). reflexivity.
Defined.

Lemma runcmd_blank_line_witness :
  all_chars blank_char (c_chars "   ") = true /\
  parse_args "   " = Some (Args []) /\
  runcmd Demo.table 3 "   " Demo.pages = Returned 0 Demo.pages [].
Proof.
  split; [reflexivity|].
  apply (runcmd_blank_line _ Demo.table 3 "   " Demo.pages). reflexivity.
Defined.

Lemma runcmd_unknown_command_witness :
  blank " " /\ well_spaced [("frobnicate", " "); ("now", " ")] /\
  (1 < 15)%nat /\
  (forall c, In c Demo.table -> name c <> "frobnicate") /\
  runcmd Demo.table 3 (line " " [("frobnicate", " "); ("now", " ")]) Demo.pages =
    Returned 0 Demo.pages [Cprintf (ln "Unknown command '%s'") [AStr "frobnicate"]].
Proof.
  assert (Hb : blank " ") by reflexivity.
  assert (Hw : well_spaced [("frobnicate", " "); ("now", " ")]).
  { cbn. unfold word, blank. repeat split; try discriminate; reflexivity. }
  assert (Hno : forall c, In c Demo.table -> name c <> "frobnicate").
  { intros c [<-|[<-|[<-|[<-|[<-|[]]]]]]; discriminate. }
  split; [exact Hb|]. split; [exact Hw|]. split; [lia|]. split; [exact Hno|].
  apply (runcmd_unknown_command _ Demo.table 3 " " "frobnicate" " "
           [("now", " ")] Demo.pages Hb Hw); [simpl; lia | exact Hno].
Defined.

Lemma runcmd_calls_named_handler_witness :
  blank " " /\ well_spaced [("showva2pa", " "); ("1000", " ")] /\
  (1 < 15)%nat /\
  (forall c', In c' (Demo.quit :: firstn 3 (commands Demo.E0)) -> name c' <> "showva2pa") /\
  runcmd Demo.table 3 (line " " [("showva2pa", " "); ("1000", " ")]) =
    mon_showva2pa Demo.E0 3 ["showva2pa"; "1000"].
Proof.
  assert (Hb : blank " ") by reflexivity.
  assert (Hw : well_spaced [("showva2pa", " "); ("1000", " ")]).
  { cbn. unfold word, blank. repeat split; try discriminate; reflexivity. }
  assert (Hno : forall c', In c' (Demo.quit :: firstn 3 (commands Demo.E0)) ->
                           name c' <> "showva2pa").
  { intros c [<-|[<-|[<-|[<-|[]]]]]; discriminate. }
  split; [exact Hb|]. split; [exact Hw|]. split; [lia|]. split; [exact Hno|].
  apply (runcmd_calls_named_handler _ (Demo.quit :: firstn 3 (commands Demo.E0))
           {| name := "showva2pa";
              desc := "Display the physical pages information corresponding to the designated virtual addresses";
              func := mon_showva2pa Demo.E0 |}
           [] 3 " " " " [("1000", " ")] Hb Hw); [simpl; lia | exact Hno].
Defined.

Lemma runcmd_help_lists_commands_witness :
  blank EmptyString /\ well_spaced [("help", " "); ("me", " ")] /\
  (1 < 15)%nat /\
  runcmd (commands Demo.E0) 3 (line EmptyString [("help", " "); ("me", " ")])
         Demo.pages =
    Returned 0 Demo.pages (map help_line (commands Demo.E0)).
Proof.
  assert (Hb : blank EmptyString) by reflexivity.
  assert (Hw : well_spaced [("help", " "); ("me", " ")]).
  { cbn. unfold word, blank. repeat split; try discriminate; reflexivity. }
  split; [exact Hb|]. split; [exact Hw|]. split; [lia|].
  apply (runcmd_help_lists_commands _ Demo.E0 3 EmptyString " " [("me", " ")]
           Demo.pages Hb Hw). simpl; lia.
Defined.

Lemma monitor_session_observes_only_witness :
  read_only Demo.E0 /\
  state_of (monitor (commands Demo.E0) 8
              [Some "showva2pa 0 3000"; None; Some "backtrace"; Some "kerninfo"]
              Demo.pages) = Demo.pages.
Proof.
  split; [apply toy_read_only|].
  apply (proj2 (monitor_session_observes_only _ Demo.E0 8
                  [Some "showva2pa 0 3000"; None; Some "backtrace"; Some "kerninfo"]
                  Demo.pages)).
  apply toy_read_only.
Defined.

Lemma showva2pa_single_address_witness :
  wrap32 (strtol Demo.E0 "1000" 16) + stride < 2 ^ 32 /\ (1 <= 2)%nat /\
  exists s' t,
    mon_showva2pa Demo.E0 2 ["showva2pa"; "1000"] Demo.pages = Returned 0 s' t /\
    visit (wrap32 (strtol Demo.E0 "1000" 16)) t.
Proof.
  assert (H : wrap32 (strtol Demo.E0 "1000" 16) + stride < 2 ^ 32)
    by (apply Z.ltb_lt; reflexivity).
  split; [exact H|]. split; [lia|].
  apply (proj2 (showva2pa_single_address _ Demo.E0 2 "showva2pa" "1000" Demo.pages));
    [exact H | lia].
Defined.

Lemma showva2pa_returns_unless_it_wraps_witness :
  (4096 + stride * (2 + 1) < 2 ^ 32 /\ (2 < 5)%nat /\
   exists s' t,
     mon_showva2pa Demo.E0 5 ["showva2pa"; "3000"; "1000"] Demo.pages = Returned 0 s' t /\
     walked t = strides stride 4096 3) /\
  (2 ^ 32 <= 4294963200 + stride * (0 + 1) /\
   exists s' t,
     mon_showva2pa Demo.E0 5 ["showva2pa"; "fffff000"; "fffff000"] Demo.pages =
       Unfinished s' t).
Proof.
  split.
  - split; [apply Z.ltb_lt; reflexivity|]. split; [lia|].
    apply (proj1 (showva2pa_returns_unless_it_wraps _ Demo.E0 5 "showva2pa" "3000" "1000"
                    Demo.pages)); [apply Z.ltb_lt; reflexivity | vm_compute; lia].
  - split; [apply Z.leb_le; reflexivity|].
    apply (proj2 (showva2pa_returns_unless_it_wraps _ Demo.E0 5 "showva2pa" "fffff000"
                    "fffff000" Demo.pages)). apply Z.leb_le. reflexivity.
Defined.

Lemma backtrace_shows_chain_prefix_witness :
  exists k, (k <= 4)%nat /\ chain Demo.E0 (wrap32 (read_ebp Demo.E0)) k.
Proof.
  destruct (backtrace_shows_chain_prefix _ Demo.E0 4 ["backtrace"] Demo.pages)
    as (k & Hk & _ & _ & Hret).
  exists k. split; [exact Hk|]. eapply Hret. reflexivity.
Defined.
